(** * GJK-3D (OBB): the intersection test of Main.cpp

    A shallow embedding of [getFarthestPointInDirection], [Support],
    [checkTetrahedron], [ContainsOrigin] and [TestGJK] of
    GJK3D/GJK-3D/Main.cpp, and the properties of the specification that
    concern them.

    The C++ code computes on [float].  The control flow of the test only
    uses [+], [-], [*], unary [-] and the comparisons [>], [<], [<=]
    against zero, so the embedding is written once over an interface of
    these operations ([FloatOps]).  Everything that is proved for an
    arbitrary instance holds for IEEE single precision as well:
    [Binary32_FloatOps] is that instance, on the reference model of the
    Standard Library.  Concrete runs are evaluated on corners with small
    integer coordinates, in exact arithmetic ([Z_FloatOps]) and in single
    precision restricted to integer values ([Single_FloatOps]); what
    exact arithmetic shows carries over to single precision for boxes
    whose corners are small integers, where no operation rounds. *)

From Stdlib Require Import ZArith Lia List Bool SpecFloat.
From stdpp Require Import base option list.

Set Default Proof Using "Type".

(** ** Scalars *)

Class FloatOps (float : Type) := {
  f0 : float;                          (* 0.0f *)
  f1 : float;                          (* 1.0f *)
  fadd : float -> float -> float;
  fsub : float -> float -> float;
  fmul : float -> float -> float;
  fneg : float -> float;
  fgt : float -> float -> bool;        (* x > y *)
  flt : float -> float -> bool;        (* x < y *)
  fle : float -> float -> bool         (* x <= y *)
}.

(** ** The part of glm that the test uses *)

Module glm.

Record vec3 {float : Type} := Vec3 { x : float; y : float; z : float }.
Arguments vec3 : clear implicits.
Arguments Vec3 {float} _ _ _.

Section Ops.
Context {float : Type} {ops : FloatOps float}.

(* glm::vec3(s): the three components are s. *)
Definition splat (s : float) : vec3 float := Vec3 s s s.

(* operator-(vec3, vec3) *)
Definition sub (a b : vec3 float) : vec3 float :=
  Vec3 (fsub (x a) (x b)) (fsub (y a) (y b)) (fsub (z a) (z b)).

(* operator-(vec3) *)
Definition neg (a : vec3 float) : vec3 float :=
  Vec3 (fneg (x a)) (fneg (y a)) (fneg (z a)).

(* glm::dot: tmp = a * b; tmp.x + tmp.y + tmp.z *)
Definition dot (a b : vec3 float) : float :=
  fadd (fadd (fmul (x a) (x b)) (fmul (y a) (y b))) (fmul (z a) (z b)).

(* glm::cross *)
Definition cross (a b : vec3 float) : vec3 float :=
  Vec3 (fsub (fmul (y a) (z b)) (fmul (y b) (z a)))
       (fsub (fmul (z a) (x b)) (fmul (z b) (x a)))
       (fsub (fmul (x a) (y b)) (fmul (x b) (y a))).
End Ops.

End glm.

Import glm(vec3, Vec3).

(** ** Program state

    [simplex] is the global [std::vector<glm::vec3>]; [dir] is the local
    variable of [TestGJK] that [ContainsOrigin] and [checkTetrahedron]
    receive by reference and overwrite. *)

Record State {float : Type} := mkState {
  simplex : list (vec3 float);
  dir : vec3 float
}.
Arguments State : clear implicits.
Arguments mkState {float} _ _.

(** [struct OBB { glm::vec3 corners[8]; }]: [corners obj i] is
    [obj.corners[i]]; the code reads the indices 0..7 only. *)
Record OBB {float : Type} := mkOBB { corners : nat -> vec3 float }.
Arguments OBB : clear implicits.
Arguments mkOBB {float} _.

(** A computation on the state that may have undefined behaviour
    ([None]): reading or writing a vector element that does not exist. *)
Definition M (float A : Type) : Type := State float -> option (A * State float).

Definition ret {float A} (a : A) : M float A := fun st => Some (a, st).

Definition bind {float A B} (m : M float A) (k : A -> M float B) : M float B :=
  fun st => match m st with
            | Some (a, st') => k a st'
            | None => None
            end.

Declare Scope gjk_scope.
Delimit Scope gjk_scope with gjk.
Notation "'let*' v ':=' m 'in' k" := (bind m (fun v => k))
  (at level 10, v name, m at level 100, k at level 200, only parsing) : gjk_scope.
Notation "m >> k" := (bind m (fun _ => k))
  (at level 100, k at level 200, right associativity, only parsing) : gjk_scope.
Local Open Scope gjk_scope.

Section Vector.
Context {float : Type}.

(* simplex.size() *)
Definition size : M float nat := fun st => Some (length (simplex st), st).

(* simplex.back(); undefined on an empty vector *)
Definition back : M float (vec3 float) :=
  fun st => match last (simplex st) with
            | Some v => Some (v, st)
            | None => None
            end.

(* simplex[i] as a value; undefined out of range *)
Definition at_ (i : nat) : M float (vec3 float) :=
  fun st => match simplex st !! i with
            | Some v => Some (v, st)
            | None => None
            end.

(* simplex[i] = v; undefined out of range *)
Definition assign (i : nat) (v : vec3 float) : M float unit :=
  fun st => if i <? length (simplex st)
            then Some (tt, mkState (<[i:=v]> (simplex st)) (dir st))
            else None.

(* simplex.erase(simplex.begin()) *)
Definition erase_begin : M float unit :=
  fun st => match simplex st with
            | [] => None
            | _ :: rest => Some (tt, mkState rest (dir st))
            end.

(* simplex.erase(simplex.end() - 1) *)
Definition erase_last : M float unit :=
  fun st => match simplex st with
            | [] => None
            | _ :: _ => Some (tt, mkState (removelast (simplex st)) (dir st))
            end.

(* simplex.push_back(v) *)
Definition push_back (v : vec3 float) : M float unit :=
  fun st => Some (tt, mkState (simplex st ++ [v]) (dir st)).

(* simplex.clear() *)
Definition clear : M float unit :=
  fun st => Some (tt, mkState [] (dir st)).

Definition get_dir : M float (vec3 float) := fun st => Some (dir st, st).

(* dir = v *)
Definition set_dir (v : vec3 float) : M float unit :=
  fun st => Some (tt, mkState (simplex st) v).

(* simplex[i] = simplex[j] *)
Definition copy (i j : nat) : M float unit :=
  let* v := at_ j in assign i v.
End Vector.

(** ** The functions of Main.cpp *)

Section GJK.
Context {float : Type} {ops : FloatOps float}.

Local Abbreviation vec := (vec3 float).

Definition gt0 (s : float) : bool := fgt s f0.

(** Lines 103-121. *)
Definition getFarthestPointInDirection (obj : OBB float) (dir : vec) : vec :=
  let body (acc : float * vec) (i : nat) :=
    let '(maxDist, farthestPoint) := acc in
    if fgt (glm.dot (corners obj i) dir) maxDist
    then (glm.dot (corners obj i) dir, corners obj i)
    else (maxDist, farthestPoint) in
  snd (fold_left body (seq 1 7) (glm.dot (corners obj 0) dir, corners obj 0)).

(** Lines 124-132.  [dir] is the caller's variable, read through the
    reference. *)
Definition Support (a b : OBB float) : M float vec :=
  let* dir := get_dir in
  let p1 := getFarthestPointInDirection a dir in
  let p2 := getFarthestPointInDirection b (glm.neg dir) in
  let p3 := glm.sub p1 p2 in
  ret p3.

(** Lines 135-183. *)
Definition checkTetrahedron (ao ab ac abc : vec) : M float bool :=
  let ab_abc := glm.cross ab abc in
  if gt0 (glm.dot ab_abc ao) then
    copy 1 2 >>
    copy 2 3 >>
    set_dir (glm.cross (glm.cross ab ao) ab) >>
    erase_begin >>
    erase_last >>
    ret false
  else
    let acp := glm.cross abc ac in
    if gt0 (glm.dot acp ao) then
      copy 2 3 >>
      set_dir (glm.cross (glm.cross ac ao) ac) >>
      erase_begin >>
      erase_last >>
      ret false
    else
      copy 0 1 >>
      copy 1 2 >>
      copy 2 3 >>
      erase_last >>
      set_dir abc >>
      ret false.

(** Lines 186-344. *)
Definition ContainsOrigin : M float bool :=
  let* a := back in
  let* n := size in
  if n =? 3 then
    let* b := at_ 1 in
    let* c := at_ 0 in
    let ab := glm.sub b a in
    let ac := glm.sub c a in
    let abc := glm.cross ab ac in
    let ab_abc := glm.cross ab abc in
    if gt0 (glm.dot ab_abc (glm.neg a)) then
      copy 0 1 >>
      copy 1 2 >>
      set_dir (glm.cross (glm.cross ab (glm.neg a)) ab) >>
      erase_last >>
      ret false
    else
      let abc_ac := glm.cross abc ac in
      if gt0 (glm.dot abc_ac (glm.neg a)) then
        copy 1 2 >>
        set_dir (glm.cross (glm.cross ac (glm.neg a)) ac) >>
        erase_last >>
        ret false
      else
        (if gt0 (glm.dot abc (glm.neg a)) then
           set_dir abc
         else
           let* temp := at_ 1 in
           copy 1 0 >>
           assign 0 temp >>
           set_dir (glm.neg abc)) >>
        ret false
  else if n =? 2 then
    let* b := at_ 0 in
    let ab := glm.sub b a in
    set_dir (glm.cross (glm.cross ab (glm.neg a)) ab) >>
    ret false
  else if n =? 4 then
    let* d := at_ 0 in
    let* c := at_ 1 in
    let* b := at_ 2 in
    let ab := glm.sub b a in
    let ac := glm.sub c a in
    let ad := glm.sub d a in
    let abc := glm.cross ab ac in
    if gt0 (glm.dot abc (glm.neg a)) then
      checkTetrahedron (glm.neg a) ab ac abc
    else
      let acd := glm.cross ac ad in
      if gt0 (glm.dot acd (glm.neg a)) then
        copy 2 1 >>
        copy 1 0 >>
        checkTetrahedron (glm.neg a) ac ad acd
      else
        let adb := glm.cross ad ab in
        if gt0 (glm.dot adb (glm.neg a)) then
          copy 1 2 >>
          copy 2 0 >>
          checkTetrahedron (glm.neg a) ad ab adb
        else
          ret true
  else
    ret false.

(** What one pass through the body of [while (true)] does: leave the
    function with a verdict, or go round again. *)
Inductive Step := Return (verdict : bool) | Continue.

(** Lines 348-363: everything before the loop. *)
Definition TestGJK_prologue (a b : OBB float) : M float Step :=
  clear >>
  set_dir (glm.splat f1) >>
  (let* p := Support a b in push_back p) >>
  (let* c := back in set_dir (glm.neg c)) >>
  (let* p := Support a b in push_back p) >>
  let* lastPoint := back in
  let* dir := get_dir in
  if flt (glm.dot lastPoint dir) f0 then
    ret (Return false)
  else
    let* s0 := at_ 0 in
    let* s1 := at_ 1 in
    set_dir (glm.cross (glm.cross (glm.sub s0 s1) (glm.neg s1)) (glm.sub s0 s1)) >>
    ret Continue.

(** Lines 368-389: the body of the loop. *)
Definition TestGJK_body (a b : OBB float) : M float Step :=
  (let* p := Support a b in push_back p) >>
  let* lastPoint := back in
  let* dir := get_dir in
  if fle (glm.dot lastPoint dir) f0 then
    ret (Return false)
  else
    let* r := ContainsOrigin in
    if r then ret (Return true) else ret Continue.

(** [while (true) body], cut off after [fuel] passes: [Some v] when the
    loop has returned [v], [None] when it is still running. *)
Fixpoint while_true (fuel : nat) (body : M float Step) : M float (option bool) :=
  match fuel with
  | O => ret None
  | S fuel' =>
      let* r := body in
      match r with
      | Return v => ret (Some v)
      | Continue => while_true fuel' body
      end
  end.

(** Lines 346-391. *)
Definition TestGJK (fuel : nat) (a b : OBB float) : M float (option bool) :=
  let* r := TestGJK_prologue a b in
  match r with
  | Return v => ret (Some v)
  | Continue => while_true fuel (TestGJK_body a b)
  end.

End GJK.

(** ** Notions used to state the properties *)

Section Derived.
Context {float : Type} {ops : FloatOps float}.

Local Abbreviation vec := (vec3 float).

(** The triple product [(u x v) x u] of lines 214, 229, 269 and 363. *)
Definition doubleCross (u v : vec) : vec := glm.cross (glm.cross u v) u.

(** The value that [Support(a, b, dir)] returns. *)
Definition SupportPoint (a b : OBB float) (dir : vec) : vec :=
  glm.sub (getFarthestPointInDirection a dir)
          (getFarthestPointInDirection b (glm.neg dir)).

(** The simplex with the next support point pushed (line 368). *)
Definition pushed (a b : OBB float) (s : State float) : State float :=
  mkState (simplex s ++ [SupportPoint a b (dir s)]) (dir s).

(** The state after [n] passes through [body] that all went round again. *)
Fixpoint passes (n : nat) (body : M float Step) (s : State float)
  : option (State float) :=
  match n with
  | O => Some s
  | S k => match body s with
           | Some (Continue, s') => passes k body s'
           | _ => None
           end
  end.

(** The state at the top of pass [n] (counted from 0) of the loop of
    [TestGJK a b], when the call gets that far. *)
Definition loop_head (n : nat) (a b : OBB float) (st : State float)
  : option (State float) :=
  match TestGJK_prologue a b st with
  | Some (Continue, s) => passes n (TestGJK_body a b) s
  | _ => None
  end.

(** ArgMaxPoint in the words of the specification: of the points [p],
    then [later] in this order, the first whose dot product with [d] is
    not exceeded by any later point. *)
Fixpoint ArgMaxPoint_spec_of (d p : vec) (later : list vec) : vec :=
  match later with
  | [] => p
  | q :: rest =>
      if forallb (fun r => negb (fgt (glm.dot r d) (glm.dot p d))) later
      then p
      else ArgMaxPoint_spec_of d q rest
  end.

(** ArgMaxPoint of a hull of eight points. *)
Definition ArgMaxPoint_spec (hull : OBB float) (d : vec) : vec :=
  ArgMaxPoint_spec_of d (corners hull 0) (map (corners hull) (seq 1 7)).

(** The eight dot products that [getFarthestPointInDirection obj d]
    compares. *)
Definition dots (obj : OBB float) (d : vec) : list float :=
  map (fun i => glm.dot (corners obj i) d) (seq 0 8).

(** [>] orders the values of [V] as it orders numbers: among them, a value
    that exceeds [y] exceeds every [z] that does not exceed [y]. *)
Definition ordered (V : list float) : bool :=
  forallb (fun x => forallb (fun y => forallb (fun z =>
    implb (fgt x y && negb (fgt z y)) (fgt x z)) V) V) V.

End Derived.

(** ** Arithmetic for concrete runs *)

(** Exact arithmetic: the integers. *)
#[export] Instance Z_FloatOps : FloatOps Z := {|
  f0 := 0%Z;
  f1 := 1%Z;
  fadd := Z.add;
  fsub := Z.sub;
  fmul := Z.mul;
  fneg := Z.opp;
  fgt := Z.gtb;
  flt := Z.ltb;
  fle := Z.leb
|}.

(** Single precision on integer values.  Every integer of magnitude at
    most 2^24 is a [float], and [+], [-], [*] return the exact result when
    it is such an integer; [inexact] stands for the rounding they do
    otherwise.  Negation and the comparisons are exact. *)
Definition single (inexact : Z -> Z) (r : Z) : Z :=
  if (Z.abs r <=? 16777216)%Z then r else inexact r.

Definition Single_FloatOps (inexact : Z -> Z) : FloatOps Z := {|
  f0 := 0%Z;
  f1 := 1%Z;
  fadd := fun a b => single inexact (a + b)%Z;
  fsub := fun a b => single inexact (a - b)%Z;
  fmul := fun a b => single inexact (a * b)%Z;
  fneg := Z.opp;
  fgt := Z.gtb;
  flt := Z.ltb;
  fle := Z.leb
|}.

(** IEEE single precision itself (binary32: 24 bits of precision,
    exponents below 128, round to nearest even), with its infinities, NaN
    and signed zeros: the reference model of the Standard Library. *)
#[export] Instance Binary32_FloatOps : FloatOps spec_float := {|
  f0 := S754_zero false;
  f1 := S754_finite false 8388608 (-23);
  fadd := SFadd 24 128;
  fsub := SFsub 24 128;
  fmul := SFmul 24 128;
  fneg := SFopp;
  fgt := fun x y => SFltb y x;
  flt := SFltb;
  fle := SFleb
|}.

Definition is_nan (x : spec_float) : bool :=
  match x with S754_nan => true | _ => false end.

Definition is_zero (x : spec_float) : bool :=
  match x with S754_zero _ => true | _ => false end.

(** Neither NaN nor an infinity. *)
Definition is_finite (x : spec_float) : bool :=
  match x with S754_zero _ | S754_finite _ _ _ => true | _ => false end.

Definition finite3 (v : vec3 spec_float) : bool :=
  is_finite (glm.x v) && is_finite (glm.y v) && is_finite (glm.z v).

(** Every coordinate is [+0] or [-0]. *)
Definition zero_vector (v : vec3 spec_float) : bool :=
  is_zero (glm.x v) && is_zero (glm.y v) && is_zero (glm.z v).

Definition finite_box (obj : OBB spec_float) : bool :=
  forallb (fun i => finite3 (corners obj i)) (seq 0 8).

(** Equal, or two zeros (of different sign). *)
Definition same_number (x y : spec_float) : Prop :=
  x = y \/ (is_zero x = true /\ is_zero y = true).

Definition same_vector (u v : vec3 spec_float) : Prop :=
  same_number (glm.x u) (glm.x v) /\ same_number (glm.y u) (glm.y v) /\
  same_number (glm.z u) (glm.z v).

(** A key that orders the values other than NaN as [<] does: the class
    (infinite, finite or zero, with its sign), then exponent and mantissa. *)
Definition key (x : spec_float) : Z * Z * Z :=
  match x with
  | S754_nan => (0, 0, 0)
  | S754_zero _ => (0, 0, 0)
  | S754_infinity s => (if s then -2 else 2, 0, 0)
  | S754_finite s m e => if s then (-1, - e, - Z.pos m) else (1, e, Z.pos m)
  end%Z.

Definition key_lt (k1 k2 : Z * Z * Z) : Prop :=
  let '(a1, b1, c1) := k1 in
  let '(a2, b2, c2) := k2 in
  (a1 < a2 \/ (a1 = a2 /\ (b1 < b2 \/ (b1 = b2 /\ c1 < c2))))%Z.

(** The [float] nearest to an integer. *)
Definition of_Z (n : Z) : spec_float := binary_normalize 24 128 n 0 false.

Definition B3 (a b c : Z) : vec3 spec_float := Vec3 (of_Z a) (of_Z b) (of_Z c).

Definition obb32 (l : list (vec3 spec_float)) : OBB spec_float :=
  mkOBB (fun i => nth i l (B3 0 0 0)).

(** ** Concrete simplices and boxes *)

Definition P3 (a b c : Z) : vec3 Z := Vec3 a b c.

(** An [OBB] from the list of its eight corners. *)
Definition obb_of (l : list (vec3 Z)) : OBB Z :=
  mkOBB (fun i => nth i l (P3 0 0 0)).

(** The state in which [TestGJK] is entered does not matter (see
    [TestGJK_initial]); concrete runs start from this one. *)
Definition st0 : State Z := mkState [] (P3 0 0 0).

(** A tetrahedron with the origin in the plane of its face [ABC]. *)
Definition flat_d : vec3 Z := P3 (-2) 1 0.
Definition flat_c : vec3 Z := P3 0 0 (-2).
Definition flat_b : vec3 Z := P3 0 0 2.
Definition flat_a : vec3 Z := P3 1 0 0.

(** A tetrahedron with the origin outside face [ABC] and outside edge [ab]. *)
Definition edge_d : vec3 Z := P3 (-1) 0 0.
Definition edge_c : vec3 Z := P3 0 (-1) (-1).
Definition edge_b : vec3 Z := P3 0 0 (-1).
Definition edge_a : vec3 Z := P3 1 (-1) 0.
Definition edge_st : State Z :=
  mkState [edge_d; edge_c; edge_b; edge_a] (P3 5 6 7).

(** Two boxes that do not meet: [cyc_A] has centre (3,-2,-1) and half
    axes (4,2,0), (2,-4,0), (0,0,1); [cyc_B] has centre (-5,5,3) and half
    axes (0,2,4), (0,6,-3), (2,0,0). *)
Definition cyc_A : OBB Z :=
  obb_of [P3 (-3) 0 0; P3 (-3) 0 (-2); P3 1 (-8) (-2); P3 9 (-4) 0;
          P3 1 (-8) 0; P3 5 4 (-2); P3 5 4 0; P3 9 (-4) (-2)].
Definition cyc_B : OBB Z :=
  obb_of [P3 (-7) 13 4; P3 (-7) 1 10; P3 (-7) (-3) 2; P3 (-7) 9 (-4);
          P3 (-3) 13 4; P3 (-3) 1 10; P3 (-3) 9 (-4); P3 (-3) (-3) 2].

(** The state in which [TestGJK cyc_A cyc_B] enters its loop, the state
    at the top of its third pass, and the state at the top of its fifth
    pass. *)
Definition cyc_enter : State Z :=
  mkState [P3 12 7 (-2); P3 4 (-21) (-4)] (P3 (-7920) 2100 2280).
Definition cyc_head : State Z :=
  mkState [P3 0 3 (-2); P3 4 (-17) 4] (P3 (-288) 84 472).
Definition cyc_tri : State Z :=
  mkState [P3 0 (-9) 4; P3 0 3 (-2); P3 12 7 (-2)] (P3 (-24) 72 144).

(** A box turned by 45 degrees about the [y] axis and an axis-parallel
    cube: [asym_A] has centre (0,0,0) and half axes (1,0,1), (-1,0,1),
    (0,1,0); [asym_B] is [-1,1] x [-1,1] x [0,2]. *)
Definition asym_A : OBB Z :=
  obb_of [P3 0 (-1) (-2); P3 0 1 (-2); P3 (-2) (-1) 0; P3 (-2) 1 0;
          P3 2 (-1) 0; P3 2 1 0; P3 0 (-1) 2; P3 0 1 2].
Definition asym_B : OBB Z :=
  obb_of [P3 (-1) (-1) 0; P3 (-1) 1 0; P3 1 (-1) 0; P3 1 1 0;
          P3 (-1) (-1) 2; P3 (-1) 1 2; P3 1 (-1) 2; P3 1 1 2].

(** The sum of the corners of [obj], corner [i] taken [w i] times. *)
Definition weighted_sum (w : nat -> Z) (obj : OBB Z) : vec3 Z :=
  fold_right (fun i acc =>
                P3 (w i * glm.x (corners obj i) + glm.x acc)
                   (w i * glm.y (corners obj i) + glm.y acc)
                   (w i * glm.z (corners obj i) + glm.z acc))%Z
             (P3 0 0 0) (seq 0 8).

(** ** Notions used to state further properties *)

Section Further.
Context {float : Type} {ops : FloatOps float}.

Local Abbreviation vec := (vec3 float).

(** [p] is a point of the Minkowski difference of the corners:
    [a.corners[i] - b.corners[j]] for two indices of the arrays. *)
Definition is_difference (a b : OBB float) (p : vec) : Prop :=
  exists i j, i < 8 /\ j < 8 /\ p = glm.sub (corners a i) (corners b j).

(** Lines 441-459 of [update], the caller of [TestGJK]: what is done with
    the verdict [hit] of [TestGJK(obb2, obb1)].  [velocity] is the
    velocity of [obj2], [antiStuck] the global flag. *)
Record Bounce := mkBounce {
  velocity : vec;
  antiStuck : bool
}.

Definition respond (hit : bool) (s : Bounce) : Bounce :=
  if hit && negb (antiStuck s) then
    (* velocity.x *= -1; antiStuck = true; *)
    mkBounce (Vec3 (fmul (glm.x (velocity s)) (fneg f1))
                   (glm.y (velocity s)) (glm.z (velocity s)))
             true
  else if antiStuck s then
    (* antiStuck = false; *)
    mkBounce (velocity s) false
  else s.

End Further.

Definition zero3 : vec3 Z := P3 0 0 0.

(** [w1 p1 + w2 p2 + w3 p3 + w4 p4] *)
Definition combination4 (w1 w2 w3 w4 : Z) (p1 p2 p3 p4 : vec3 Z) : vec3 Z :=
  P3 (w1 * glm.x p1 + w2 * glm.x p2 + w3 * glm.x p3 + w4 * glm.x p4)
     (w1 * glm.y p1 + w2 * glm.y p2 + w3 * glm.y p3 + w4 * glm.y p4)
     (w1 * glm.z p1 + w2 * glm.z p2 + w3 * glm.z p3 + w4 * glm.z p4)%Z.

(** What the loop keeps true at the top of every pass, in exact
    arithmetic: the simplex has two points, or three points [d; c; b]
    with the direction [(c - b) x (d - b)] not pointing away from the
    origin as seen from [b]. *)
Definition oriented (s : State Z) : Prop :=
  length (simplex s) = 2 \/
  exists d c b, simplex s = [d; c; b] /\
                dir s = glm.cross (glm.sub c b) (glm.sub d b) /\
                (0 <= glm.dot (dir s) (glm.neg b))%Z.


(** Three cubes of side 2: [apart_C] is 6 away from [apart_A] along [x],
    and [near_B] is 1 away from it. *)
Definition apart_A : OBB Z :=
  obb_of [P3 (-1) (-1) 0; P3 (-1) 1 0; P3 1 (-1) 0; P3 1 1 0;
          P3 (-1) (-1) 2; P3 (-1) 1 2; P3 1 (-1) 2; P3 1 1 2].
Definition apart_C : OBB Z :=
  obb_of [P3 7 (-1) 0; P3 7 1 0; P3 9 (-1) 0; P3 9 1 0;
          P3 7 (-1) 2; P3 7 1 2; P3 9 (-1) 2; P3 9 1 2].
Definition near_B : OBB Z :=
  obb_of [P3 (-4) (-2) 0; P3 (-4) (-2) 2; P3 (-4) 0 0; P3 (-4) 0 2;
          P3 (-2) (-2) 0; P3 (-2) (-2) 2; P3 (-2) 0 0; P3 (-2) 0 2].

(** ** Boxes and states in binary32 *)

(** The box with the corners of [obj], as [float]s. *)
Definition embed (obj : OBB Z) : OBB spec_float :=
  mkOBB (fun i => let c := corners obj i in B3 (glm.x c) (glm.y c) (glm.z c)).

Definition embed_state (s : State Z) : State spec_float :=
  mkState (map (fun c => B3 (glm.x c) (glm.y c) (glm.z c)) (simplex s))
          (B3 (glm.x (dir s)) (glm.y (dir s)) (glm.z (dir s))).

(** The cube [-1,1] x [-1,1] x [0,2]. *)
Definition unit_B : OBB spec_float := embed asym_B.

Definition st32 : State spec_float := mkState [B3 5 5 5] (B3 1 2 3).

(** A state whose direction is zero, with one negative zero. *)
Definition zero_st32 : State spec_float :=
  mkState [B3 3 2 0; B3 (-3) (-2) 0]
          (Vec3 (S754_zero false) (S754_zero true) (S754_zero false)).

(** A flat box [-2^127, 2^127] x [-2^127, 2^127] x [-1, 1]: every
    coordinate is a finite [float] (the largest is about 3.4 * 10^38, twice
    [2^127]).  With the direction (2, 2, 0) the dot products of its corners
    are [-inf], NaN ([inf - inf]), [+inf], NaN, and the same again. *)
Definition huge : Z := 2 ^ 127.
Definition huge_A : OBB spec_float :=
  obb32 [B3 (- huge) (- huge) (-1); B3 huge (- huge) (-1);
         B3 huge huge (-1); B3 (- huge) huge (-1);
         B3 (- huge) (- huge) 1; B3 huge (- huge) 1;
         B3 huge huge 1; B3 (- huge) huge 1].
Definition huge_st : State spec_float := mkState [] (B3 2 2 0).

(** ** Bounds under which single precision is exact *)

Definition within (K x : Z) : Prop := (- K <= x <= K)%Z.

(** Every coordinate of [v] has magnitude at most [K]. *)
Definition small (K : Z) (v : vec3 Z) : Prop :=
  within K (glm.x v) /\ within K (glm.y v) /\ within K (glm.z v).

Definition smallb (K : Z) (v : vec3 Z) : bool :=
  (Z.abs (glm.x v) <=? K)%Z && (Z.abs (glm.y v) <=? K)%Z &&
  (Z.abs (glm.z v) <=? K)%Z.

(** The corners of [obj] have integer coordinates of magnitude at most 10.
    Every value that [TestGJK] computes from two such boxes is an integer
    of magnitude at most 15 360 000, below 2^24. *)
Definition small_box (obj : OBB Z) : bool :=
  forallb (fun i => smallb 10 (corners obj i)) (seq 0 8).

(** What holds at the top of every pass for two such boxes. *)
Definition tame (s : State Z) : Prop :=
  (length (simplex s) = 2 \/ length (simplex s) = 3) /\
  (forall p, In p (simplex s) -> small 20 p) /\ small 128000 (dir s).

(** * Properties *)

(** ** The simplex case analysis *)

#[local] Arguments glm.dot : simpl never.
#[local] Arguments glm.cross : simpl never.
#[local] Arguments glm.sub : simpl never.
#[local] Arguments glm.neg : simpl never.
#[local] Arguments glm.splat : simpl never.

(** Unfolds the vector operations of a computation that runs on a simplex
    of known length. *)
Ltac run_vector :=
  unfold copy, bind, back, size, at_, assign, erase_begin, erase_last,
    push_back, clear, set_dir, get_dir, ret; simpl.

Section CaseAnalysis.
Context {float : Type} {ops : FloatOps float}.

Local Abbreviation vec := (vec3 float).

(** What [checkTetrahedron] does to a simplex of four points
    [s0; s1; s2; s3], whatever vectors it is given. *)
Lemma checkTetrahedron_cases (ao ab ac abc s0 s1 s2 s3 dir0 : vec) :
  checkTetrahedron ao ab ac abc (mkState [s0; s1; s2; s3] dir0) =
  Some (false,
        if gt0 (glm.dot (glm.cross ab abc) ao) then
          mkState [s2; s3] (doubleCross ab ao)
        else if gt0 (glm.dot (glm.cross abc ac) ao) then
          mkState [s1; s3] (doubleCross ac ao)
        else
          mkState [s1; s2; s3] abc).
Proof.
  unfold checkTetrahedron, doubleCross.
  destruct (gt0 (glm.dot (glm.cross ab abc) ao)); [reflexivity|].
  destruct (gt0 (glm.dot (glm.cross abc ac) ao)); reflexivity.
Qed.

(** The last element of a non-empty vector exists. *)
Lemma last_nonempty {A} (l : list A) : l <> [] -> exists v, last l = Some v.
Proof.
  induction l as [|u l IH]; [congruence|]. intros _.
  destruct l as [|w l]; [exists u; reflexivity|].
  destruct IH as [v Hv]; [congruence|]. exists v. exact Hv.
Qed.

(** The dispatch of the 4-point case (lines 282-337): the first face of
    [ABC], [ACD], [ADB] with the origin outside is handed to
    [checkTetrahedron], after the simplex has been relabelled for it. *)
Lemma ContainsOrigin_tetrahedron_cases (d c b a dir0 : vec) :
  let ab := glm.sub b a in
  let ac := glm.sub c a in
  let ad := glm.sub d a in
  let ao := glm.neg a in
  ContainsOrigin (mkState [d; c; b; a] dir0) =
  if gt0 (glm.dot (glm.cross ab ac) ao) then
    checkTetrahedron ao ab ac (glm.cross ab ac) (mkState [d; c; b; a] dir0)
  else if gt0 (glm.dot (glm.cross ac ad) ao) then
    checkTetrahedron ao ac ad (glm.cross ac ad) (mkState [d; d; c; a] dir0)
  else if gt0 (glm.dot (glm.cross ad ab) ao) then
    checkTetrahedron ao ad ab (glm.cross ad ab) (mkState [d; b; d; a] dir0)
  else
    Some (true, mkState [d; c; b; a] dir0).
Proof.
  intros ab ac ad ao. unfold ContainsOrigin. run_vector.
  fold ab ac ad ao.
  destruct (gt0 (glm.dot (glm.cross ab ac) ao)); [reflexivity|].
  destruct (gt0 (glm.dot (glm.cross ac ad) ao)); [reflexivity|].
  destruct (gt0 (glm.dot (glm.cross ad ab) ao)); reflexivity.
Qed.

(** C1. A tetrahedron [d; c; b; a] for which none of the three face tests
    [dot(ab x ac, -a) > 0], [dot(ac x ad, -a) > 0], [dot(ad x ab, -a) > 0]
    holds is reported as containing the origin: [ContainsOrigin] returns
    [true] and leaves simplex and direction as they are.  A dot product
    that is exactly zero fails [> 0], so an origin on a face counts as
    enclosed. *)
Theorem ContainsOrigin_tetrahedron_enclosed (d c b a dir0 : vec) :
  gt0 (glm.dot (glm.cross (glm.sub b a) (glm.sub c a)) (glm.neg a)) = false ->
  gt0 (glm.dot (glm.cross (glm.sub c a) (glm.sub d a)) (glm.neg a)) = false ->
  gt0 (glm.dot (glm.cross (glm.sub d a) (glm.sub b a)) (glm.neg a)) = false ->
  ContainsOrigin (mkState [d; c; b; a] dir0) = Some (true, mkState [d; c; b; a] dir0).
Proof.
  intros Habc Hacd Hadb.
  rewrite ContainsOrigin_tetrahedron_cases. cbv zeta.
  rewrite Habc, Hacd, Hadb. reflexivity.
Qed.

(** C3, as the code has it. Called on a simplex of four points,
    [checkTetrahedron] returns [false] and leaves either two points (the
    origin is outside edge [ab] or edge [ac]: the first and the last-but-one
    stored point go, and the direction is the triple product of that edge)
    or three points (otherwise: one point goes, and the direction is the
    face normal [abc]). *)
Theorem checkTetrahedron_reduces (ao ab ac abc s0 s1 s2 s3 dir0 : vec) :
  exists st',
    checkTetrahedron ao ab ac abc (mkState [s0; s1; s2; s3] dir0) = Some (false, st') /\
    ((gt0 (glm.dot (glm.cross ab abc) ao) = true /\
      st' = mkState [s2; s3] (doubleCross ab ao) /\ length (simplex st') = 2)
     \/
     (gt0 (glm.dot (glm.cross ab abc) ao) = false /\
      gt0 (glm.dot (glm.cross abc ac) ao) = true /\
      st' = mkState [s1; s3] (doubleCross ac ao) /\ length (simplex st') = 2)
     \/
     (gt0 (glm.dot (glm.cross ab abc) ao) = false /\
      gt0 (glm.dot (glm.cross abc ac) ao) = false /\
      st' = mkState [s1; s2; s3] abc /\ length (simplex st') = 3)).
Proof.
  rewrite checkTetrahedron_cases.
  destruct (gt0 (glm.dot (glm.cross ab abc) ao)) eqn:Hab.
  - eexists; split; [reflexivity|]. left. auto.
  - destruct (gt0 (glm.dot (glm.cross abc ac) ao)) eqn:Hac.
    + eexists; split; [reflexivity|]. right; left. auto.
    + eexists; split; [reflexivity|]. right; right. auto.
Qed.

(** C5. The 3-point case [c; b; a] of [ContainsOrigin], with [ab = b - a],
    [ac = c - a], [abc = ab x ac]: origin outside edge [ab] drops [c];
    else origin outside edge [ac] drops [b]; else the three points stay,
    in the order [c; b; a] with direction [abc] when [abc . (-a) > 0] and
    in the order [b; c; a] with direction [-abc] otherwise.  The result is
    [false] every time. *)
Theorem ContainsOrigin_triangle (c b a dir0 : vec) :
  let ab := glm.sub b a in
  let ac := glm.sub c a in
  let abc := glm.cross ab ac in
  let ao := glm.neg a in
  let st := mkState [c; b; a] dir0 in
  (gt0 (glm.dot (glm.cross ab abc) ao) = true ->
   ContainsOrigin st = Some (false, mkState [b; a] (glm.cross (glm.cross ab ao) ab)))
  /\
  (gt0 (glm.dot (glm.cross ab abc) ao) = false ->
   gt0 (glm.dot (glm.cross abc ac) ao) = true ->
   ContainsOrigin st = Some (false, mkState [c; a] (glm.cross (glm.cross ac ao) ac)))
  /\
  (gt0 (glm.dot (glm.cross ab abc) ao) = false ->
   gt0 (glm.dot (glm.cross abc ac) ao) = false ->
   gt0 (glm.dot abc ao) = true ->
   ContainsOrigin st = Some (false, mkState [c; b; a] abc))
  /\
  (gt0 (glm.dot (glm.cross ab abc) ao) = false ->
   gt0 (glm.dot (glm.cross abc ac) ao) = false ->
   gt0 (glm.dot abc ao) = false ->
   ContainsOrigin st = Some (false, mkState [b; c; a] (glm.neg abc))).
Proof.
  intros ab ac abc ao st. unfold st, ContainsOrigin. run_vector.
  fold ab ac. fold abc. fold ao.
  repeat split; intros; repeat match goal with E : gt0 _ = _ |- _ => rewrite E; clear E end;
    reflexivity.
Qed.

(** The 2-point case (lines 260-281). *)
Lemma ContainsOrigin_line (b a dir0 : vec) :
  ContainsOrigin (mkState [b; a] dir0) =
  Some (false, mkState [b; a] (doubleCross (glm.sub b a) (glm.neg a))).
Proof. reflexivity. Qed.

(** C10, as the code has it. On a simplex that is not empty and whose size
    is not 2, 3 or 4 (size 1, or 5 and above), [ContainsOrigin] returns
    [false] and changes neither the simplex nor the direction. *)
Theorem ContainsOrigin_other_sizes (st : State float) :
  simplex st <> [] ->
  length (simplex st) <> 2 ->
  length (simplex st) <> 3 ->
  length (simplex st) <> 4 ->
  ContainsOrigin st = Some (false, st).
Proof.
  intros Hne H2 H3 H4.
  destruct (last_nonempty (simplex st) Hne) as [v Hv].
  unfold ContainsOrigin, bind, back, size, ret. rewrite Hv.
  apply Nat.eqb_neq in H2, H3, H4. rewrite H3, H2, H4. reflexivity.
Qed.

End CaseAnalysis.

(** ** The driving loop *)

Section Loop.
Context {float : Type} {ops : FloatOps float}.

Local Abbreviation vec := (vec3 float).

Lemma Support_run (a b : OBB float) (st : State float) :
  Support a b st = Some (SupportPoint a b (dir st), st).
Proof. reflexivity. Qed.

(** Lines 348-363 in closed form. *)
Lemma TestGJK_prologue_run (a b : OBB float) (st : State float) :
  let p1 := SupportPoint a b (glm.splat f1) in
  let d1 := glm.neg p1 in
  let p2 := SupportPoint a b d1 in
  TestGJK_prologue a b st =
  if flt (glm.dot p2 d1) f0
  then Some (Return false, mkState [p1; p2] d1)
  else Some (Continue,
             mkState [p1; p2] (doubleCross (glm.sub p1 p2) (glm.neg p2))).
Proof.
  intros p1 d1 p2. unfold TestGJK_prologue, Support. run_vector.
  fold (SupportPoint a b (glm.splat f1)). fold p1. fold d1.
  fold (SupportPoint a b d1). fold p2.
  destruct (flt (glm.dot p2 d1) f0); reflexivity.
Qed.

(** The call clears the simplex and sets [dir] itself: what the state was
    before does not matter. *)
Lemma TestGJK_prologue_initial (a b : OBB float) (st st' : State float) :
  TestGJK_prologue a b st = TestGJK_prologue a b st'.
Proof. rewrite !TestGJK_prologue_run. reflexivity. Qed.

Lemma TestGJK_initial (fuel : nat) (a b : OBB float) (st st' : State float) :
  TestGJK fuel a b st = TestGJK fuel a b st'.
Proof.
  unfold TestGJK, bind. rewrite (TestGJK_prologue_initial a b st st'). reflexivity.
Qed.

(** Lines 368-389 in closed form. *)
Lemma TestGJK_body_run (a b : OBB float) (s : State float) :
  TestGJK_body a b s =
  if fle (glm.dot (SupportPoint a b (dir s)) (dir s)) f0
  then Some (Return false, pushed a b s)
  else match ContainsOrigin (pushed a b s) with
       | Some (true, s') => Some (Return true, s')
       | Some (false, s') => Some (Continue, s')
       | None => None
       end.
Proof.
  unfold TestGJK_body, Support, pushed, bind, get_dir, push_back, back, ret.
  simpl. fold (SupportPoint a b (dir s)). rewrite last_snoc. simpl.
  destruct (fle (glm.dot (SupportPoint a b (dir s)) (dir s)) f0); [reflexivity|].
  destruct (ContainsOrigin _) as [[[] s']|]; reflexivity.
Qed.

Lemma passes_add (m n : nat) (body : M float Step) (s : State float) :
  passes (m + n) body s =
  match passes m body s with
  | Some s' => passes n body s'
  | None => None
  end.
Proof.
  revert s. induction m as [|m IH]; intros s; simpl; [reflexivity|].
  destruct (body s) as [[[v|] s1]|]; auto.
Qed.

Lemma passes_S (n : nat) (body : M float Step) (s : State float) :
  passes (S n) body s =
  match passes n body s with
  | Some s' => match body s' with
               | Some (Continue, s'') => Some s''
               | _ => None
               end
  | None => None
  end.
Proof.
  replace (S n) with (n + 1) by lia. rewrite passes_add.
  destruct (passes n body s) as [s'|]; [|reflexivity]. simpl.
  destruct (body s') as [[[v|] s1]|]; reflexivity.
Qed.

(** [while (true)] returns [v] exactly when some pass, reached by going
    round again every time before, returns [v]. *)
Lemma while_true_returns (fuel : nat) (body : M float Step)
      (s : State float) (v : bool) (s' : State float) :
  while_true fuel body s = Some (Some v, s') <->
  exists n sn, n < fuel /\ passes n body s = Some sn /\
               body sn = Some (Return v, s').
Proof.
  revert s. induction fuel as [|fuel IH]; intros s.
  - simpl. unfold ret. split; [discriminate|]. intros (n & sn & Hn & _). lia.
  - simpl. unfold bind.
    destruct (body s) as [[[v0|] s1]|] eqn:Hb.
    + unfold ret. split.
      * intros E. injection E as -> ->. exists 0, s. repeat split; [lia|exact Hb].
      * intros (n & sn & Hn & Hp & Hr). destruct n as [|n].
        -- simpl in Hp. injection Hp as <-. congruence.
        -- simpl in Hp. rewrite Hb in Hp. discriminate.
    + rewrite IH. split.
      * intros (n & sn & Hn & Hp & Hr). exists (S n), sn.
        repeat split; [lia| |exact Hr]. simpl. rewrite Hb. exact Hp.
      * intros (n & sn & Hn & Hp & Hr). destruct n as [|n].
        -- simpl in Hp. injection Hp as <-. congruence.
        -- exists n, sn. repeat split; [lia| |exact Hr].
           simpl in Hp. rewrite Hb in Hp. exact Hp.
    + split; [discriminate|].
      intros (n & sn & Hn & Hp & Hr). destruct n as [|n].
      * simpl in Hp. injection Hp as <-. congruence.
      * simpl in Hp. rewrite Hb in Hp. discriminate.
Qed.

(** [while (true)] is still running after [fuel] passes exactly when all
    of them went round again. *)
Lemma while_true_running (fuel : nat) (body : M float Step)
      (s s' : State float) :
  while_true fuel body s = Some (None, s') <-> passes fuel body s = Some s'.
Proof.
  revert s. induction fuel as [|fuel IH]; intros s; simpl.
  - unfold ret. split; intros E; injection E as ->; reflexivity.
  - unfold bind. destruct (body s) as [[[v0|] s1]|]; [|apply IH|].
    + unfold ret. split; discriminate.
    + split; discriminate.
Qed.

Lemma while_true_more_fuel (k fuel : nat) (body : M float Step)
      (s : State float) (v : bool) (s' : State float) :
  while_true fuel body s = Some (Some v, s') ->
  while_true (fuel + k) body s = Some (Some v, s').
Proof.
  rewrite !while_true_returns. intros (n & sn & Hn & Hp & Hr).
  exists n, sn. repeat split; [lia|exact Hp|exact Hr].
Qed.

Lemma loop_head_passes (n : nat) (a b : OBB float) (st : State float) :
  let p1 := SupportPoint a b (glm.splat f1) in
  let p2 := SupportPoint a b (glm.neg p1) in
  flt (glm.dot p2 (glm.neg p1)) f0 = false ->
  loop_head n a b st =
  passes n (TestGJK_body a b)
         (mkState [p1; p2] (doubleCross (glm.sub p1 p2) (glm.neg p2))).
Proof.
  intros p1 p2 Hlt. unfold loop_head. rewrite TestGJK_prologue_run.
  fold p1 p2. rewrite Hlt. reflexivity.
Qed.

(** Sizes around a call of [ContainsOrigin] on three or four points. *)
Lemma ContainsOrigin_sizes (st : State float) :
  length (simplex st) = 3 \/ length (simplex st) = 4 ->
  exists r s', ContainsOrigin st = Some (r, s') /\
    (r = true -> length (simplex st) = 4 /\ s' = st) /\
    (r = false -> length (simplex s') = 2 \/ length (simplex s') = 3).
Proof.
  destruct st as [l d0].
  destruct l as [|x1 [|x2 [|x3 [|x4 [|x5 l]]]]]; simpl; intros [E|E];
    try discriminate E.
  - unfold ContainsOrigin. run_vector.
    repeat match goal with
           | |- context [if gt0 ?e then _ else _] => destruct (gt0 e)
           end;
      eexists; eexists; (split; [reflexivity|]); simpl;
      (split; [discriminate|auto]).
  - rewrite ContainsOrigin_tetrahedron_cases. cbv zeta.
    repeat match goal with
           | |- context [if gt0 ?e then _ else _] => destruct (gt0 e)
           end;
      rewrite ?checkTetrahedron_cases;
      repeat match goal with
             | |- context [if gt0 ?e then _ else _] => destruct (gt0 e)
             end;
      eexists; eexists; (split; [reflexivity|]); simpl;
      (split; [try discriminate; auto|try discriminate; auto]).
Qed.

(** No vector access of a call of [TestGJK] is out of range: the call is
    defined, with a verdict or still running, for every number of passes. *)
Lemma while_true_defined (fuel : nat) (a b : OBB float) (s : State float) :
  length (simplex s) = 2 \/ length (simplex s) = 3 ->
  exists r s', while_true fuel (TestGJK_body a b) s = Some (r, s').
Proof.
  revert s. induction fuel as [|fuel IH]; intros s Hs; simpl.
  - eexists; eexists; reflexivity.
  - unfold bind. rewrite TestGJK_body_run.
    destruct (fle _ f0); [eexists; eexists; reflexivity|].
    destruct (ContainsOrigin_sizes (pushed a b s)) as (r & s1 & E & _ & Hf).
    { unfold pushed. simpl. rewrite length_app. simpl. lia. }
    rewrite E. destruct r; [eexists; eexists; reflexivity|].
    apply IH. apply Hf. reflexivity.
Qed.

Lemma TestGJK_defined (fuel : nat) (a b : OBB float) (st : State float) :
  exists r s', TestGJK fuel a b st = Some (r, s').
Proof.
  unfold TestGJK, bind. rewrite TestGJK_prologue_run.
  destruct (flt _ f0); [eexists; eexists; reflexivity|].
  apply while_true_defined. left. reflexivity.
Qed.

(** C2. The exits of [TestGJK]. With [p1], [p2] the first two support
    points and [d1 = -p1]: the call returns [v] if and only if either
    [dot(p2, d1) < 0] and [v] is [false] (the exit before the loop), or
    that test fails and some pass of the loop, reached by going round
    every time before, pushes a support point [p] with [dot(p, dir) <= 0]
    and [v] is [false], or with [dot(p, dir) <= 0] failing, [ContainsOrigin]
    reporting containment, and [v] is [true]. *)
Theorem TestGJK_exits (fuel : nat) (a b : OBB float) (st : State float)
        (v : bool) (s' : State float) :
  let p1 := SupportPoint a b (glm.splat f1) in
  let d1 := glm.neg p1 in
  let p2 := SupportPoint a b d1 in
  TestGJK fuel a b st = Some (Some v, s') <->
  (flt (glm.dot p2 d1) f0 = true /\ v = false /\ s' = mkState [p1; p2] d1)
  \/
  (flt (glm.dot p2 d1) f0 = false /\
   exists n s, n < fuel /\ loop_head n a b st = Some s /\
     ((fle (glm.dot (SupportPoint a b (dir s)) (dir s)) f0 = true /\
       v = false /\ s' = pushed a b s)
      \/
      (fle (glm.dot (SupportPoint a b (dir s)) (dir s)) f0 = false /\
       v = true /\ ContainsOrigin (pushed a b s) = Some (true, s')))).
Proof.
  intros p1 d1 p2.
  assert (Hbody : forall s,
    TestGJK_body a b s = Some (Return v, s') <->
    ((fle (glm.dot (SupportPoint a b (dir s)) (dir s)) f0 = true /\
      v = false /\ s' = pushed a b s)
     \/
     (fle (glm.dot (SupportPoint a b (dir s)) (dir s)) f0 = false /\
      v = true /\ ContainsOrigin (pushed a b s) = Some (true, s')))).
  { intros s. rewrite TestGJK_body_run.
    destruct (fle (glm.dot (SupportPoint a b (dir s)) (dir s)) f0).
    - split.
      + intros E. injection E as <- <-. left. auto.
      + intros [(_ & -> & ->)|(E & _)]; [reflexivity|discriminate E].
    - destruct (ContainsOrigin (pushed a b s)) as [[[] s1]|].
      + split.
        * intros E. injection E as <- <-. right. auto.
        * intros [(E & _)|(_ & -> & E)]; [discriminate E|].
          injection E as ->. reflexivity.
      + split; [discriminate|].
        intros [(E & _)|(_ & _ & E)]; discriminate E.
      + split; [discriminate|].
        intros [(E & _)|(_ & _ & E)]; discriminate E. }
  destruct (flt (glm.dot p2 d1) f0) eqn:Hlt.
  - unfold TestGJK, bind. rewrite TestGJK_prologue_run. fold p1 d1 p2.
    rewrite Hlt. unfold ret. split.
    + intros E. injection E as <- <-. left. auto.
    + intros [(_ & -> & ->)|(E & _)]; [reflexivity|discriminate E].
  - unfold TestGJK, bind. rewrite TestGJK_prologue_run. fold p1 d1 p2.
    rewrite Hlt. rewrite while_true_returns. split.
    + intros (n & sn & Hn & Hp & Hr). right. split; [reflexivity|].
      exists n, sn. repeat split; [exact Hn| |apply Hbody; exact Hr].
      rewrite loop_head_passes by exact Hlt. exact Hp.
    + intros [(E & _)|(_ & n & sn & Hn & Hp & Hr)]; [discriminate E|].
      exists n, sn. repeat split; [exact Hn| |apply Hbody; exact Hr].
      rewrite loop_head_passes in Hp by exact Hlt. exact Hp.
Qed.

Lemma passes_invariant (P : State float -> Prop) (body : M float Step) :
  (forall s s', P s -> body s = Some (Continue, s') -> P s') ->
  forall n s0 s, P s0 -> passes n body s0 = Some s -> P s.
Proof.
  intros Hstep. induction n as [|n IH]; intros s0 s H0.
  - simpl. intros E. injection E as <-. exact H0.
  - simpl. destruct (body s0) as [[[v|] s1]|] eqn:Hb; try discriminate.
    apply IH. exact (Hstep s0 s1 H0 Hb).
Qed.

(** A pass that goes round again: the test of line 370 fails and
    [ContainsOrigin] returns [false]. *)
Lemma TestGJK_body_continue (a b : OBB float) (s s' : State float) :
  TestGJK_body a b s = Some (Continue, s') ->
  fle (glm.dot (SupportPoint a b (dir s)) (dir s)) f0 = false /\
  ContainsOrigin (pushed a b s) = Some (false, s').
Proof.
  rewrite TestGJK_body_run.
  destruct (fle _ f0); [discriminate|].
  destruct (ContainsOrigin (pushed a b s)) as [[[] s1]|]; try discriminate.
  intros E. injection E as <-. auto.
Qed.

(** The possible ends of a call, in terms of the state at the top of the
    last pass. *)
Lemma TestGJK_outcome (fuel : nat) (a b : OBB float) (st : State float)
      (r : option bool) (s' : State float) :
  TestGJK fuel a b st = Some (r, s') ->
  TestGJK_prologue a b st = Some (Return false, s') /\ r = Some false
  \/
  exists s0, TestGJK_prologue a b st = Some (Continue, s0) /\
    ((r = None /\ passes fuel (TestGJK_body a b) s0 = Some s')
     \/
     (exists n s v, r = Some v /\ passes n (TestGJK_body a b) s0 = Some s /\
                    TestGJK_body a b s = Some (Return v, s'))).
Proof.
  unfold TestGJK, bind.
  pose proof (TestGJK_prologue_run a b st) as Hp. cbv zeta in Hp.
  destruct (TestGJK_prologue a b st) as [[[v|] s0]|] eqn:E0.
  - unfold ret. intros E. injection E as <- <-.
    destruct (flt _ f0); [|discriminate]. injection Hp as -> _. left. auto.
  - intros E. right. exists s0. split; [reflexivity|].
    destruct r as [v|].
    + right. apply while_true_returns in E. destruct E as (n & sn & _ & Hn & Hr).
      exists n, sn, v. auto.
    + left. split; [reflexivity|]. apply while_true_running. exact E.
  - discriminate.
Qed.

(** C6. On two points [b; a], with [ab = b - a], [ContainsOrigin] sets the
    direction to [(ab x (-a)) x ab], keeps the two points and returns
    [false].  [TestGJK] computes the same formula itself, on line 363:
    with [p1], [p2] the first two support points, everything before the
    loop either leaves through the exit of line 358 or ends in the state
    [entry] with the simplex [p1; p2] and this direction -- the very state
    that a call of [ContainsOrigin] in place of line 363 would produce --
    and the loop is entered in that state. *)
Theorem ContainsOrigin_line_direction (b a dir0 : vec) (A B : OBB float)
        (st : State float) :
  ContainsOrigin (mkState [b; a] dir0) =
    Some (false, mkState [b; a]
            (glm.cross (glm.cross (glm.sub b a) (glm.neg a)) (glm.sub b a)))
  /\
  let p1 := SupportPoint A B (glm.splat f1) in
  let p2 := SupportPoint A B (glm.neg p1) in
  let entry :=
    mkState [p1; p2]
      (glm.cross (glm.cross (glm.sub p1 p2) (glm.neg p2)) (glm.sub p1 p2)) in
  TestGJK_prologue A B st =
    (if flt (glm.dot p2 (glm.neg p1)) f0
     then Some (Return false, mkState [p1; p2] (glm.neg p1))
     else Some (Continue, entry))
  /\
  ContainsOrigin (mkState [p1; p2] (glm.neg p1)) = Some (false, entry)
  /\
  (flt (glm.dot p2 (glm.neg p1)) f0 = false ->
   loop_head 0 A B st = Some entry /\ TestGJK 0 A B st = Some (None, entry)).
Proof.
  split; [reflexivity|]. intros p1 p2 entry.
  split; [apply TestGJK_prologue_run|]. split; [reflexivity|].
  intros Hlt. split.
  - unfold loop_head. rewrite TestGJK_prologue_run. fold p1 p2.
    rewrite Hlt. reflexivity.
  - unfold TestGJK, bind. rewrite TestGJK_prologue_run. fold p1 p2.
    rewrite Hlt. reflexivity.
Qed.

(** The size of the simplex at the top of every pass. *)
Lemma loop_head_size (n : nat) (a b : OBB float) (st s : State float) :
  loop_head n a b st = Some s ->
  length (simplex s) = 2 \/ length (simplex s) = 3.
Proof.
  unfold loop_head. rewrite TestGJK_prologue_run.
  destruct (flt _ f0); [discriminate|].
  revert s. induction n as [|n IH]; intros s.
  - simpl. intros E. injection E as <-. left. reflexivity.
  - rewrite passes_S.
    destruct (passes n _ _) as [sn|]; [|discriminate].
    specialize (IH sn eq_refl).
    rewrite TestGJK_body_run.
    destruct (fle _ f0); [discriminate|].
    destruct (ContainsOrigin_sizes (pushed a b sn)) as (r & s1 & E & _ & Hf).
    { unfold pushed. simpl. rewrite length_app. simpl. lia. }
    rewrite E. destruct r; [discriminate|].
    intros E'. injection E' as <-. apply Hf. reflexivity.
Qed.

(** C9. The size of the simplex during a call of [TestGJK].  When the loop
    is entered the simplex holds exactly the two support points pushed
    since the call cleared it.  At the top of every pass it holds 2 or 3
    points; line 368 of the body pushes one, which makes 3 or 4; the body
    then either returns or runs [ContainsOrigin] on these 3 or 4 points,
    which leaves at most 4, and 2 or 3 whenever it returns [false] and
    the loop goes round.  However the call ends, after any number of
    passes, it leaves between 2 and 4 points. *)
Theorem simplex_size_bounded (a b : OBB float) (st : State float) :
  (forall r s, TestGJK_prologue a b st = Some (r, s) ->
     simplex s = [SupportPoint a b (glm.splat f1);
                  SupportPoint a b (glm.neg (SupportPoint a b (glm.splat f1)))])
  /\
  (forall n s, loop_head n a b st = Some s ->
     (length (simplex s) = 2 \/ length (simplex s) = 3) /\
     (let* p := Support a b in push_back p) s = Some (tt, pushed a b s) /\
     length (simplex (pushed a b s)) = S (length (simplex s)) /\
     (length (simplex (pushed a b s)) = 3 \/
      length (simplex (pushed a b s)) = 4) /\
     TestGJK_body a b s =
       (if fle (glm.dot (SupportPoint a b (dir s)) (dir s)) f0
        then Some (Return false, pushed a b s)
        else match ContainsOrigin (pushed a b s) with
             | Some (true, s') => Some (Return true, s')
             | Some (false, s') => Some (Continue, s')
             | None => None
             end) /\
     exists r s', ContainsOrigin (pushed a b s) = Some (r, s') /\
       length (simplex s') <= 4 /\
       (r = false -> length (simplex s') = 2 \/ length (simplex s') = 3))
  /\
  (forall fuel, exists r s',
     TestGJK fuel a b st = Some (r, s') /\
     2 <= length (simplex s') <= 4 /\
     (r = None -> loop_head fuel a b st = Some s' /\ length (simplex s') <= 3)).
Proof.
  assert (Hpush : forall s, length (simplex (pushed a b s)) = S (length (simplex s))).
  { intros s. unfold pushed. simpl. rewrite length_app. simpl. lia. }
  split; [|split].
  - intros r s. rewrite TestGJK_prologue_run.
    destruct (flt _ f0); intros E; injection E as <- <-; reflexivity.
  - intros n s Hs. pose proof (loop_head_size n a b st s Hs) as Hhead.
    assert (Hp : length (simplex (pushed a b s)) = 3 \/
                 length (simplex (pushed a b s)) = 4) by (rewrite Hpush; lia).
    split; [exact Hhead|]. split; [reflexivity|]. split; [apply Hpush|].
    split; [exact Hp|]. split; [apply TestGJK_body_run|].
    destruct (ContainsOrigin_sizes (pushed a b s) Hp) as (r & s1 & E & Ht & Hf).
    exists r, s1. split; [exact E|]. split; [|exact Hf].
    destruct r.
    + destruct Ht as [Hl ->]; [reflexivity|]. lia.
    + specialize (Hf eq_refl). lia.
  - intros fuel. destruct (TestGJK_defined fuel a b st) as (r & s' & E).
    exists r, s'. split; [exact E|].
    destruct (TestGJK_outcome _ _ _ _ _ _ E)
      as [(Hp & ->)|(s0 & Hp & [(-> & Hr)|(n & s & v & -> & Hr & Hb)])].
    + rewrite TestGJK_prologue_run in Hp.
      destruct (flt _ f0); [|discriminate]. injection Hp as <-.
      simpl. split; [lia|discriminate].
    + assert (Hh : loop_head fuel a b st = Some s')
        by (unfold loop_head; rewrite Hp; exact Hr).
      pose proof (loop_head_size _ _ _ _ _ Hh). split; [lia|]. intros _.
      split; [exact Hh|lia].
    + assert (Hh : loop_head n a b st = Some s)
        by (unfold loop_head; rewrite Hp; exact Hr).
      pose proof (loop_head_size _ _ _ _ _ Hh) as Hhead.
      split; [|discriminate].
      rewrite TestGJK_body_run in Hb. destruct (fle _ f0).
      * injection Hb as _ <-. rewrite Hpush. lia.
      * destruct (ContainsOrigin_sizes (pushed a b s)) as (r & s1 & Ec & Ht & _).
        { rewrite Hpush. lia. }
        rewrite Ec in Hb. destruct r; [|discriminate].
        injection Hb as _ <-. destruct Ht as [Hl ->]; [reflexivity|]. lia.
Qed.

End Loop.

(** ** Support points *)

Section ArgMax.
Context {float : Type} {ops : FloatOps float}.

Local Abbreviation vec := (vec3 float).

Lemma ordered_above (V : list float) (x y z : float) :
  ordered V = true -> In x V -> In y V -> In z V ->
  fgt x y = true -> fgt z y = false -> fgt x z = true.
Proof.
  unfold ordered. rewrite forallb_forall. intros H Hx Hy Hz Hxy Hzy.
  specialize (H x Hx). rewrite forallb_forall in H.
  specialize (H y Hy). rewrite forallb_forall in H.
  specialize (H z Hz). rewrite Hxy, Hzy in H. exact H.
Qed.

Lemma dots_In (obj : OBB float) (d : vec) (i : nat) :
  i < 8 -> In (glm.dot (corners obj i) d) (dots obj d).
Proof.
  intros Hi. unfold dots.
  apply (in_map (fun i => glm.dot (corners obj i) d)). apply in_seq. lia.
Qed.

(** The comparison of the loop with the specification needs one property
    of [>]: a value that exceeds [y] exceeds every [z] that does not
    exceed [y].  It is needed of the dot products that are compared, the
    values of [V], only. *)
Variable d : vec.
Variable V : list float.
Hypothesis V_ordered : ordered V = true.

Lemma forallb_not_exceeded_false (m m' : float) (l : list vec) :
  In m V -> In m' V -> (forall r, In r l -> In (glm.dot r d) V) ->
  fgt m' m = false ->
  forallb (fun r => negb (fgt (glm.dot r d) m)) l = false ->
  forallb (fun r => negb (fgt (glm.dot r d) m')) l = false.
Proof using V_ordered.
  intros Hm Hm' Hl Hgt. induction l as [|r l IH]; simpl; [discriminate|].
  rewrite !andb_false_iff, !negb_false_iff. intros [Hr|Hr].
  - left. apply (ordered_above V _ m _ V_ordered); auto. apply Hl. left. reflexivity.
  - right. apply IH; [|exact Hr]. intros r' Hr'. apply Hl. right. exact Hr'.
Qed.

(** A later point that does not exceed [p] does not change the choice. *)
Lemma ArgMaxPoint_spec_of_skip (p q : vec) (rest : list vec) :
  In (glm.dot p d) V -> In (glm.dot q d) V ->
  (forall r, In r rest -> In (glm.dot r d) V) ->
  fgt (glm.dot q d) (glm.dot p d) = false ->
  ArgMaxPoint_spec_of d p (q :: rest) = ArgMaxPoint_spec_of d p rest.
Proof using V_ordered.
  intros Hp Hq Hrest Hgt. cbn [ArgMaxPoint_spec_of forallb].
  rewrite Hgt. cbn [negb andb].
  destruct rest as [|r rest']; [reflexivity|].
  cbn [ArgMaxPoint_spec_of].
  destruct (forallb (fun r0 => negb (fgt (glm.dot r0 d) (glm.dot p d))) (r :: rest'))
    eqn:Hall; [reflexivity|].
  rewrite (forallb_not_exceeded_false _ _ (r :: rest') Hp Hq Hrest Hgt Hall).
  reflexivity.
Qed.

(** The loop of [getFarthestPointInDirection], entered with [p] as the
    farthest point so far, ends on the point the specification names. *)
Lemma farthest_loop_spec (obj : OBB float) (idx : list nat) (p : vec) :
  In (glm.dot p d) V ->
  (forall i, In i idx -> In (glm.dot (corners obj i) d) V) ->
  snd (fold_left
         (fun (acc : float * vec) (i : nat) =>
            let '(maxDist, farthestPoint) := acc in
            if fgt (glm.dot (corners obj i) d) maxDist
            then (glm.dot (corners obj i) d, corners obj i)
            else (maxDist, farthestPoint))
         idx (glm.dot p d, p)) =
  ArgMaxPoint_spec_of d p (map (corners obj) idx).
Proof using V_ordered.
  revert p. induction idx as [|i idx IH]; intros p Hp Hidx; [reflexivity|].
  assert (Hi : In (glm.dot (corners obj i) d) V) by (apply Hidx; left; reflexivity).
  assert (Hidx' : forall j, In j idx -> In (glm.dot (corners obj j) d) V)
    by (intros j Hj; apply Hidx; right; exact Hj).
  cbn [fold_left map].
  destruct (fgt (glm.dot (corners obj i) d) (glm.dot p d)) eqn:Hgt.
  - rewrite IH by assumption. cbn [ArgMaxPoint_spec_of forallb]. rewrite Hgt.
    reflexivity.
  - rewrite IH by assumption. rewrite ArgMaxPoint_spec_of_skip; auto.
    intros r Hr. apply in_map_iff in Hr. destruct Hr as (j & <- & Hj). auto.
Qed.

End ArgMax.

Section ArgMaxSupport.
Context {float : Type} {ops : FloatOps float}.

Lemma getFarthestPointInDirection_spec (obj : OBB float) (d : vec3 float) :
  ordered (dots obj d) = true ->
  getFarthestPointInDirection obj d = ArgMaxPoint_spec obj d.
Proof.
  intros Ho. unfold getFarthestPointInDirection, ArgMaxPoint_spec.
  apply (farthest_loop_spec d (dots obj d) Ho obj (seq 1 7) (corners obj 0)).
  - apply dots_In. lia.
  - intros i Hi. apply in_seq in Hi. apply dots_In. lia.
Qed.

(** C4, as the code has it. [Support(A, B, dir)] is
    [ArgMaxPoint(A, dir) - ArgMaxPoint(B, -dir)], where ArgMaxPoint is the
    first point of the hull whose dot product with the direction no later
    point exceeds, for every direction [dir], zero included, for which [>]
    orders the sixteen dot products that are compared -- in [float]
    arithmetic, whenever none of them is NaN ([ordered_no_nan]); and the
    call leaves the simplex and [dir] as they were (the hulls are passed
    by value).  The subtraction, the dot products and [>] are those of
    the arithmetic of the code on both sides of the equation. *)
Theorem Support_ArgMaxPoint (A B : OBB float) (st : State float) :
  ordered (dots A (dir st)) = true ->
  ordered (dots B (glm.neg (dir st))) = true ->
  Support A B st =
  Some (glm.sub (ArgMaxPoint_spec A (dir st))
                (ArgMaxPoint_spec B (glm.neg (dir st))),
        st).
Proof.
  intros HA HB. rewrite Support_run. unfold SupportPoint.
  rewrite !getFarthestPointInDirection_spec by assumption. reflexivity.
Qed.

End ArgMaxSupport.

Section ArgMaxExact.
Local Open Scope Z_scope.

Lemma Z_fgt_above (x y z : Z) :
  fgt x y = true -> fgt z y = false -> fgt x z = true.
Proof.
  simpl. rewrite !Z.gtb_ltb, Z.ltb_ge, !Z.ltb_lt. lia.
Qed.

Lemma Z_ordered (V : list Z) : ordered V = true.
Proof.
  unfold ordered.
  apply forallb_forall. intros x _. apply forallb_forall. intros y _.
  apply forallb_forall. intros z _.
  destruct (fgt x y) eqn:Hxy; [|reflexivity].
  destruct (fgt z y) eqn:Hzy; [reflexivity|]. cbn [negb andb implb].
  exact (Z_fgt_above x y z Hxy Hzy).
Qed.

(** The point the specification names maximises the dot product. *)
Lemma ArgMaxPoint_spec_of_max (d p : vec3 Z) (later : list (vec3 Z)) (q : vec3 Z) :
  In q (p :: later) ->
  glm.dot q d <= glm.dot (ArgMaxPoint_spec_of d p later) d.
Proof.
  revert p q. induction later as [|r rest IH]; intros p q Hin.
  - destruct Hin as [<-|[]]. simpl. lia.
  - cbn [ArgMaxPoint_spec_of].
    destruct (forallb (fun r0 => negb (fgt (glm.dot r0 d) (glm.dot p d))) (r :: rest))
      eqn:Hall.
    + destruct Hin as [<-|Hin]; [lia|].
      rewrite forallb_forall in Hall. specialize (Hall q Hin).
      apply negb_true_iff in Hall. simpl in Hall.
      rewrite Z.gtb_ltb in Hall. apply Z.ltb_ge in Hall. exact Hall.
    + destruct Hin as [<-|Hin]; [|apply IH; exact Hin].
      assert (Hex : exists u, In u (r :: rest) /\ glm.dot p d < glm.dot u d).
      { clear IH. induction (r :: rest) as [|u l IHl]; [discriminate|].
        simpl in Hall. apply andb_false_iff in Hall. destruct Hall as [Hu|Hl].
        - exists u. split; [left; reflexivity|].
          apply negb_false_iff in Hu. rewrite Z.gtb_ltb in Hu.
          apply Z.ltb_lt. exact Hu.
        - destruct (IHl Hl) as (u' & Hin' & Hlt).
          exists u'. split; [right|]; assumption. }
      destruct Hex as (u & Hu & Hlt).
      specialize (IH r u Hu). lia.
Qed.

End ArgMaxExact.

(** ** The order of binary32 *)

Section Binary32Order.
Local Open Scope Z_scope.

Lemma SFltb_key (x y : spec_float) :
  SFltb x y = true <->
  is_nan x = false /\ is_nan y = false /\ key_lt (key x) (key y).
Proof.
  unfold SFltb, SFcompare.
  destruct x as [sx|sx| |sx mx ex], y as [sy|sy| |sy my ey];
    try (destruct sx); try (destruct sy); simpl;
    try (split; [discriminate|intros (? & ? & ?); try discriminate; lia]);
    try (split; [intros _; repeat split; lia|reflexivity]).
  - change (Pos.compare_cont Eq mx my) with (Pos.compare mx my).
    destruct (Z.compare_spec ex ey); [destruct (Pos.compare_spec mx my)| |]; simpl;
    try (split; [discriminate|intros (? & ? & ?); try discriminate; lia]);
    try (split; [intros _; repeat split; lia|reflexivity]).
  - change (Pos.compare_cont Eq mx my) with (Pos.compare mx my).
    destruct (Z.compare_spec ex ey); [destruct (Pos.compare_spec mx my)| |]; simpl;
    try (split; [discriminate|intros (? & ? & ?); try discriminate; lia]);
    try (split; [intros _; repeat split; lia|reflexivity]).
Qed.



(** Away from NaN, a value above [y] is above every [z] that is not. *)
Lemma SFltb_above (x y z : spec_float) :
  is_nan x = false -> is_nan y = false -> is_nan z = false ->
  SFltb y x = true -> SFltb y z = false -> SFltb z x = true.
Proof.
  intros Hx Hy Hz Hyx Hyz. apply SFltb_key. apply SFltb_key in Hyx.
  destruct Hyx as (_ & _ & Hyx).
  repeat split; try assumption.
  assert (Hn : ~ key_lt (key y) (key z)).
  { intros Hk. assert (SFltb y z = true) by (apply SFltb_key; auto). congruence. }
  destruct (key x) as [[a1 b1] c1], (key y) as [[a2 b2] c2], (key z) as [[a3 b3] c3].
  simpl in *. lia.
Qed.

(** In binary32, values of which none is NaN are ordered. *)
Lemma ordered_no_nan (V : list spec_float) :
  forallb (fun v => negb (is_nan v)) V = true -> ordered V = true.
Proof.
  rewrite forallb_forall. intros Hn. unfold ordered.
  apply forallb_forall. intros x Hx. apply forallb_forall. intros y Hy.
  apply forallb_forall. intros z Hz.
  destruct (fgt x y) eqn:Hxy; [|reflexivity].
  destruct (fgt z y) eqn:Hzy; [reflexivity|]. cbn [negb andb implb].
  apply Hn in Hx, Hy, Hz. apply negb_true_iff in Hx, Hy, Hz.
  exact (SFltb_above x y z Hx Hy Hz Hxy Hzy).
Qed.

(** The equation of C4 in binary32, for dot products without NaN. *)
Lemma Support_without_nan (A B : OBB spec_float) (st : State spec_float) :
  forallb (fun v => negb (is_nan v)) (dots A (dir st)) = true ->
  forallb (fun v => negb (is_nan v)) (dots B (glm.neg (dir st))) = true ->
  Support A B st =
  Some (glm.sub (ArgMaxPoint_spec A (dir st))
                (ArgMaxPoint_spec B (glm.neg (dir st))),
        st).
Proof.
  intros HA HB. rewrite Support_run. unfold SupportPoint.
  rewrite !getFarthestPointInDirection_spec by (apply ordered_no_nan; assumption).
  reflexivity.
Qed.

End Binary32Order.

(** ** Concrete runs *)

Section Runs.
Local Open Scope Z_scope.

Lemma ContainsOrigin_tetrahedron_enclosed_witness :
  glm.dot (glm.cross (glm.sub flat_b flat_a) (glm.sub flat_c flat_a))
          (glm.neg flat_a) = 0 /\
  ContainsOrigin (mkState [flat_d; flat_c; flat_b; flat_a] (P3 5 6 7)) =
  Some (true, mkState [flat_d; flat_c; flat_b; flat_a] (P3 5 6 7)).
Proof.
  split; [reflexivity|].
  apply ContainsOrigin_tetrahedron_enclosed; reflexivity.
Defined.

(** One triangle for each of the four branches of the 3-point case. *)
Lemma ContainsOrigin_triangle_witness :
  ContainsOrigin (mkState [P3 0 0 2; P3 0 (-1) (-1); P3 0 0 1] (P3 5 6 7)) =
    Some (false, mkState [P3 0 (-1) (-1); P3 0 0 1] (P3 0 2 (-1)))
  /\
  ContainsOrigin (mkState [P3 0 (-1) 0; P3 0 (-2) (-1); P3 (-1) 0 0] (P3 5 6 7)) =
    Some (false, mkState [P3 0 (-1) 0; P3 (-1) 0 0] (P3 1 1 0))
  /\
  ContainsOrigin (mkState [P3 (-1) 0 (-1); P3 0 1 0; P3 0 1 (-1)] (P3 5 6 7)) =
    Some (false, mkState [P3 (-1) 0 (-1); P3 0 1 0; P3 0 1 (-1)] (P3 1 (-1) 0))
  /\
  ContainsOrigin (mkState [P3 0 0 0; P3 2 0 0; P3 1 (-2) 0] (P3 5 6 7)) =
    Some (false, mkState [P3 2 0 0; P3 0 0 0; P3 1 (-2) 0] (P3 0 0 (-4))).
Proof.
  split; [|split; [|split]].
  - pose proof (ContainsOrigin_triangle
                  (P3 0 0 2) (P3 0 (-1) (-1)) (P3 0 0 1) (P3 5 6 7)) as W.
    cbv zeta in W. destruct W as (W & _). apply W. reflexivity.
  - pose proof (ContainsOrigin_triangle
                  (P3 0 (-1) 0) (P3 0 (-2) (-1)) (P3 (-1) 0 0) (P3 5 6 7)) as W.
    cbv zeta in W. destruct W as (_ & W & _). apply W; reflexivity.
  - pose proof (ContainsOrigin_triangle
                  (P3 (-1) 0 (-1)) (P3 0 1 0) (P3 0 1 (-1)) (P3 5 6 7)) as W.
    cbv zeta in W. destruct W as (_ & _ & W & _). apply W; reflexivity.
  - pose proof (ContainsOrigin_triangle
                  (P3 0 0 0) (P3 2 0 0) (P3 1 (-2) 0) (P3 5 6 7)) as W.
    cbv zeta in W. destruct W as (_ & _ & _ & W). apply W; reflexivity.
Defined.

(** C3 as stated fails: on [edge_st], [ContainsOrigin] calls
    [checkTetrahedron] for face [ABC], and the call takes two of the four
    points away, not one. *)
Lemma checkTetrahedron_removes_two :
  ContainsOrigin edge_st =
    checkTetrahedron (glm.neg edge_a) (glm.sub edge_b edge_a) (glm.sub edge_c edge_a)
      (glm.cross (glm.sub edge_b edge_a) (glm.sub edge_c edge_a)) edge_st
  /\
  ~ (exists st',
       checkTetrahedron (glm.neg edge_a) (glm.sub edge_b edge_a) (glm.sub edge_c edge_a)
         (glm.cross (glm.sub edge_b edge_a) (glm.sub edge_c edge_a)) edge_st
       = Some (false, st') /\
       length (simplex st') = (length (simplex edge_st) - 1)%nat).
Proof.
  split; [reflexivity|].
  intros (st' & E & Hlen).
  vm_compute in E. injection E as <-. vm_compute in Hlen. discriminate Hlen.
Qed.

(** C10 as stated fails on the empty simplex: [simplex.back()] on line
    188 has no element to return. *)
Lemma ContainsOrigin_empty_undefined :
  ContainsOrigin (mkState [] (P3 1 1 1)) <> Some (false, mkState [] (P3 1 1 1)).
Proof. vm_compute. discriminate. Qed.

Lemma ContainsOrigin_other_sizes_witness :
  ContainsOrigin (mkState [P3 1 2 3] (P3 1 1 1)) =
    Some (false, mkState [P3 1 2 3] (P3 1 1 1))
  /\
  ContainsOrigin (mkState [P3 1 0 0; P3 0 1 0; P3 0 0 1; P3 1 1 1; P3 2 2 2] (P3 1 1 1)) =
    Some (false, mkState [P3 1 0 0; P3 0 1 0; P3 0 0 1; P3 1 1 1; P3 2 2 2] (P3 1 1 1)).
Proof.
  split; apply ContainsOrigin_other_sizes; simpl; (discriminate || lia).
Defined.

Lemma cyc_prologue_exact :
  TestGJK_prologue cyc_A cyc_B st0 = Some (Continue, cyc_enter).
Proof. vm_compute. reflexivity. Qed.

Lemma ContainsOrigin_line_direction_witness :
  ContainsOrigin (mkState [P3 1 0 0; P3 0 1 0] (P3 5 6 7)) =
    Some (false, mkState [P3 1 0 0; P3 0 1 0] (P3 (-1) (-1) 0))
  /\
  TestGJK_prologue cyc_A cyc_B st0 = Some (Continue, cyc_enter)
  /\
  ContainsOrigin (mkState [P3 12 7 (-2); P3 4 (-21) (-4)] (P3 (-12) (-7) 2)) =
    Some (false, cyc_enter)
  /\
  loop_head 0 cyc_A cyc_B st0 = Some cyc_enter
  /\
  TestGJK 0 cyc_A cyc_B st0 = Some (None, cyc_enter).
Proof.
  destruct (ContainsOrigin_line_direction
              (P3 1 0 0) (P3 0 1 0) (P3 5 6 7) cyc_A cyc_B st0)
    as (W1 & W2 & W3 & W4).
  split; [exact W1|]. split; [exact W2|]. split; [exact W3|].
  apply W4. vm_compute. reflexivity.
Defined.

Lemma simplex_size_bounded_witness :
  simplex cyc_enter = [P3 12 7 (-2); P3 4 (-21) (-4)]
  /\
  (length (simplex cyc_tri) = 2 \/ length (simplex cyc_tri) = 3)%nat
  /\
  (length (simplex (pushed cyc_A cyc_B cyc_tri)) = 3 \/
   length (simplex (pushed cyc_A cyc_B cyc_tri)) = 4)%nat
  /\
  loop_head 20 cyc_A cyc_B st0 = Some cyc_tri.
Proof.
  destruct (simplex_size_bounded cyc_A cyc_B st0) as (W1 & W2 & W3).
  split; [exact (W1 Continue cyc_enter cyc_prologue_exact)|].
  assert (Hh : loop_head 4 cyc_A cyc_B st0 = Some cyc_tri)
    by (vm_compute; reflexivity).
  destruct (W2 4%nat cyc_tri Hh) as (W4 & _ & _ & W5 & _).
  split; [exact W4|]. split; [exact W5|].
  destruct (W3 20%nat) as (r & s' & E & _ & W6).
  vm_compute in E. injection E as Hr Hs. subst r s'.
  destruct (W6 eq_refl) as (W7 & _). exact W7.
Defined.

(** The two boxes [asym_A], [asym_B] overlap: the point (0,0,1) is a
    convex combination, with all eight weights positive, of the corners of
    either box (the weights add up to 16). *)
Lemma asym_boxes_overlap :
  weighted_sum (fun i => if (6 <=? i)%nat then 5 else 1) asym_A = P3 0 0 16 /\
  weighted_sum (fun _ => 2) asym_B = P3 0 0 16.
Proof. split; reflexivity. Qed.

(** The two boxes [cyc_A], [cyc_B] are apart: every corner of [cyc_A] has
    [x >= -3] and [cyc_B] lies in [x <= -3], and the corners of [cyc_A]
    with [x = -3] have [2y + 4z <= 0] while [2y + 4z >= 2] on [cyc_B]. *)
Lemma cyc_boxes_apart :
  forallb (fun i => (glm.x (corners cyc_B i) <=? -3) &&
                    (-3 <=? glm.x (corners cyc_A i)) &&
                    (2 <=? 2 * glm.y (corners cyc_B i) + 4 * glm.z (corners cyc_B i)) &&
                    ((-3 <? glm.x (corners cyc_A i)) ||
                     (2 * glm.y (corners cyc_A i) + 4 * glm.z (corners cyc_A i) <=? 0)))
          (seq 0 8) = true.
Proof. reflexivity. Qed.

(** The runs of C7 and C8, in single precision on integer values. *)

Variable inexact : Z -> Z.

Local Abbreviation float_ops := (Single_FloatOps inexact).

Lemma cyc_prologue :
  TestGJK_prologue (ops := float_ops) cyc_A cyc_B st0 = Some (Continue, cyc_enter).
Proof. vm_compute. reflexivity. Qed.

Lemma cyc_enter_head :
  passes 2 (TestGJK_body (ops := float_ops) cyc_A cyc_B) cyc_enter = Some cyc_head.
Proof. vm_compute. reflexivity. Qed.

(** Four passes from [cyc_head] lead back to [cyc_head]. *)
Lemma cyc_period :
  passes 4 (TestGJK_body (ops := float_ops) cyc_A cyc_B) cyc_head = Some cyc_head.
Proof. vm_compute. reflexivity. Qed.

Lemma cyc_rounds (k : nat) :
  passes (4 * k) (TestGJK_body (ops := float_ops) cyc_A cyc_B) cyc_head =
  Some cyc_head.
Proof.
  induction k as [|k IH]; [reflexivity|].
  replace (4 * S k)%nat with (4 + 4 * k)%nat by lia.
  rewrite passes_add, cyc_period. exact IH.
Qed.

Lemma cyc_goes_on (n : nat) :
  exists s,
    passes n (TestGJK_body (ops := float_ops) cyc_A cyc_B) cyc_head = Some s.
Proof.
  assert (Hr : forall r, (r < 4)%nat ->
            exists s, passes r (TestGJK_body (ops := float_ops) cyc_A cyc_B)
                             cyc_head = Some s).
  { intros r Hr.
    destruct r as [|[|[|[|r]]]]; [| | | |lia]; eexists; vm_compute; reflexivity. }
  rewrite (Nat.div_mod_eq n 4), passes_add, cyc_rounds.
  apply Hr. apply Nat.mod_upper_bound. lia.
Qed.

(** C7, on the code. [TestGJK(cyc_A, cyc_B)] does not return: whatever
    the number of passes allowed, the loop is still running after them.
    The state at the top of the third pass comes back every four passes.
    All values of the run are integers that single precision represents,
    so that no rounding takes place. *)
Theorem TestGJK_never_returns (fuel : nat) (st : State Z) :
  exists s, TestGJK (ops := float_ops) fuel cyc_A cyc_B st = Some (None, s).
Proof using Type.
  rewrite (TestGJK_initial fuel cyc_A cyc_B st st0).
  unfold TestGJK, bind. rewrite cyc_prologue.
  destruct fuel as [|[|n]].
  - eexists. vm_compute. reflexivity.
  - eexists. vm_compute. reflexivity.
  - destruct (cyc_goes_on n) as [s Hs]. exists s.
    apply while_true_running.
    replace (S (S n)) with (2 + n)%nat by lia.
    rewrite passes_add, cyc_enter_head. exact Hs.
Qed.

(** The bound of 20 passes in particular, in single precision and in
    exact arithmetic. *)
Lemma TestGJK_20_passes_running :
  TestGJK (ops := float_ops) 20 cyc_A cyc_B st0 = Some (None, cyc_tri) /\
  TestGJK (ops := Z_FloatOps) 20 cyc_A cyc_B st0 = Some (None, cyc_tri).
Proof. split; vm_compute; reflexivity. Qed.

(** Called with the two boxes in the other order, the test returns
    [false] in its fourth pass. *)
Lemma TestGJK_cyc_reversed (k : nat) (st : State Z) :
  exists s, TestGJK (ops := float_ops) (4 + k) cyc_B cyc_A st = Some (Some false, s).
Proof using Type.
  rewrite (TestGJK_initial _ cyc_B cyc_A st st0).
  unfold TestGJK, bind.
  replace (TestGJK_prologue (ops := float_ops) cyc_B cyc_A st0)
    with (Some (Continue, mkState [P3 (-4) 21 6; P3 (-8) (-7) 2] (P3 5648 (-448) (-2512))))
    by (vm_compute; reflexivity).
  eexists. apply while_true_more_fuel. vm_compute. reflexivity.
Qed.

(** C8, on the code. For the overlapping boxes [asym_A] and [asym_B]
    (see [asym_boxes_overlap]), [TestGJK(asym_A, asym_B)] returns [false]
    in the first pass of the loop -- the first two support points are
    opposite, the direction of line 363 is zero, and the test [<= 0] of
    line 370 ends the call -- while [TestGJK(asym_B, asym_A)] returns
    [true] in the second pass. *)
Theorem TestGJK_not_symmetric (k : nat) (st : State Z) :
  TestGJK (ops := float_ops) (1 + k) asym_A asym_B st =
    Some (Some false,
          mkState [P3 3 2 0; P3 (-3) (-2) 0; P3 1 0 (-2)] (P3 0 0 0))
  /\
  TestGJK (ops := float_ops) (2 + k) asym_B asym_A st =
    Some (Some true,
          mkState [P3 (-1) (-2) (-2); P3 1 2 4; P3 1 2 (-2); P3 3 (-2) 0]
                  (P3 24 (-12) 0)).
Proof using Type.
  split.
  - rewrite (TestGJK_initial _ asym_A asym_B st st0).
    unfold TestGJK, bind.
    replace (TestGJK_prologue (ops := float_ops) asym_A asym_B st0)
      with (Some (Continue, mkState [P3 3 2 0; P3 (-3) (-2) 0] (P3 0 0 0)))
      by (vm_compute; reflexivity).
    apply while_true_more_fuel. vm_compute. reflexivity.
  - rewrite (TestGJK_initial _ asym_B asym_A st st0).
    unfold TestGJK, bind.
    replace (TestGJK_prologue (ops := float_ops) asym_B asym_A st0)
      with (Some (Continue, mkState [P3 1 2 4; P3 (-1) (-2) (-2)] (P3 12 24 (-20))))
      by (vm_compute; reflexivity).
    apply while_true_more_fuel. vm_compute. reflexivity.
Qed.

(** The same two verdicts in exact arithmetic. *)
Lemma TestGJK_not_symmetric_exact :
  TestGJK (ops := Z_FloatOps) 20 asym_A asym_B st0 =
    Some (Some false,
          mkState [P3 3 2 0; P3 (-3) (-2) 0; P3 1 0 (-2)] (P3 0 0 0))
  /\
  TestGJK (ops := Z_FloatOps) 20 asym_B asym_A st0 =
    Some (Some true,
          mkState [P3 (-1) (-2) (-2); P3 1 2 4; P3 1 2 (-2); P3 3 (-2) 0]
                  (P3 24 (-12) 0)).
Proof. split; vm_compute; reflexivity. Qed.

End Runs.

(** ** Runs in binary32 *)

Section Runs32.

(** C4 as stated fails in [float] arithmetic.  All coordinates of the two
    boxes and of the direction (2, 2, 0) are finite, but two products
    overflow, and the dot product of corner 1 of [huge_A] is
    [inf - inf], NaN.  Nothing exceeds NaN and NaN exceeds nothing: the
    loop of the code passes corner 1 by and ends on corner 2, while the
    first point "not exceeded by any later point" is corner 1. *)
Lemma Support_not_ArgMaxPoint :
  finite_box huge_A = true /\ finite_box unit_B = true /\
  finite3 (dir huge_st) = true /\ zero_vector (dir huge_st) = false /\
  getFarthestPointInDirection huge_A (dir huge_st) = corners huge_A 2 /\
  ArgMaxPoint_spec huge_A (dir huge_st) = corners huge_A 1 /\
  Support huge_A unit_B huge_st <>
  Some (glm.sub (ArgMaxPoint_spec huge_A (dir huge_st))
                (ArgMaxPoint_spec unit_B (glm.neg (dir huge_st))),
        huge_st).
Proof.
  repeat split; try (vm_compute; reflexivity).
  vm_compute. discriminate.
Qed.

Lemma Support_ArgMaxPoint_witness :
  Support unit_B (embed cyc_A) st32 =
  Some (glm.sub (ArgMaxPoint_spec unit_B (dir st32))
                (ArgMaxPoint_spec (embed cyc_A) (glm.neg (dir st32))),
        st32).
Proof.
  apply (Support_ArgMaxPoint unit_B (embed cyc_A) st32); vm_compute; reflexivity.
Defined.

(** The run of C7 in binary32 itself. *)

Lemma cyc_prologue_binary32 :
  TestGJK_prologue (embed cyc_A) (embed cyc_B) st32 =
  Some (Continue, embed_state cyc_enter).
Proof. vm_compute. reflexivity. Qed.

Lemma cyc_enter_head_binary32 :
  passes 2 (TestGJK_body (embed cyc_A) (embed cyc_B)) (embed_state cyc_enter) =
  Some (embed_state cyc_head).
Proof. vm_compute. reflexivity. Qed.

Lemma cyc_period_binary32 :
  passes 4 (TestGJK_body (embed cyc_A) (embed cyc_B)) (embed_state cyc_head) =
  Some (embed_state cyc_head).
Proof. vm_compute. reflexivity. Qed.

Lemma cyc_rounds_binary32 (k : nat) :
  passes (4 * k) (TestGJK_body (embed cyc_A) (embed cyc_B)) (embed_state cyc_head) =
  Some (embed_state cyc_head).
Proof.
  induction k as [|k IH]; [reflexivity|].
  replace (4 * S k) with (4 + 4 * k) by lia.
  rewrite passes_add, cyc_period_binary32. exact IH.
Qed.

Lemma TestGJK_never_returns_binary32 (fuel : nat) (st : State spec_float) :
  exists s, TestGJK fuel (embed cyc_A) (embed cyc_B) st = Some (None, s).
Proof.
  rewrite (TestGJK_initial fuel _ _ st st32).
  unfold TestGJK, bind. rewrite cyc_prologue_binary32.
  destruct fuel as [|[|n]].
  - eexists. vm_compute. reflexivity.
  - eexists. vm_compute. reflexivity.
  - assert (Hr : forall r, r < 4 ->
              exists s, passes r (TestGJK_body (embed cyc_A) (embed cyc_B))
                               (embed_state cyc_head) = Some s).
    { intros r Hr.
      destruct r as [|[|[|[|r]]]]; [| | | |lia]; eexists; vm_compute; reflexivity. }
    destruct (Hr (n mod 4)) as [s Hs]; [apply Nat.mod_upper_bound; lia|].
    exists s. apply while_true_running.
    replace (S (S n)) with (2 + n) by lia.
    rewrite passes_add, cyc_enter_head_binary32.
    rewrite (Nat.div_mod_eq n 4) at 1. rewrite passes_add, cyc_rounds_binary32.
    exact Hs.
Qed.

(** The two verdicts of C8 in binary32 itself. *)
Lemma TestGJK_not_symmetric_binary32 :
  option_map fst (TestGJK 20 (embed asym_A) (embed asym_B) st32) =
    Some (Some false) /\
  option_map fst (TestGJK 20 (embed asym_B) (embed asym_A) st32) =
    Some (Some true).
Proof. split; vm_compute; reflexivity. Qed.

End Runs32.

(** * Further properties of the code *)

(** ** For any arithmetic *)

Section More.
Context {float : Type} {ops : FloatOps float}.

Local Abbreviation vec := (vec3 float).

(** Whatever the comparisons answer, the loop of
    [getFarthestPointInDirection] ends on one of the corners it was
    given. *)
Lemma farthest_loop_corner (obj : OBB float) (d : vec) (idx : list nat)
      (m : float) (i0 : nat) :
  i0 < 8 -> Forall (fun i => i < 8) idx ->
  exists i, i < 8 /\
    snd (fold_left
           (fun (acc : float * vec) (i : nat) =>
              let '(maxDist, farthestPoint) := acc in
              if fgt (glm.dot (corners obj i) d) maxDist
              then (glm.dot (corners obj i) d, corners obj i)
              else (maxDist, farthestPoint))
           idx (m, corners obj i0)) = corners obj i.
Proof.
  revert m i0. induction idx as [|k idx IH]; intros m i0 Hi0 Hall.
  - exists i0. split; [exact Hi0|reflexivity].
  - inversion Hall as [|? ? Hk Hrest]; subst. cbn [fold_left].
    destruct (fgt (glm.dot (corners obj k) d) m); apply IH; assumption.
Qed.

Lemma farthest_corner (obj : OBB float) (d : vec) :
  exists i, i < 8 /\ getFarthestPointInDirection obj d = corners obj i.
Proof.
  unfold getFarthestPointInDirection.
  apply (farthest_loop_corner obj d (seq 1 7) _ 0); [lia|].
  repeat constructor; lia.
Qed.

Lemma SupportPoint_difference (a b : OBB float) (d : vec) :
  is_difference a b (SupportPoint a b d).
Proof.
  unfold SupportPoint.
  destruct (farthest_corner a d) as (i & Hi & ->).
  destruct (farthest_corner b (glm.neg d)) as (j & Hj & ->).
  exists i, j. auto.
Qed.

(** X1. [Support(a, b, dir)] returns a difference [a.corners[i] -
    b.corners[j]] of two corners, whatever [dir] is and whatever the
    comparisons of the arithmetic answer (NaN included). *)
Theorem Support_difference_of_corners (a b : OBB float) (st : State float) :
  exists p, Support a b st = Some (p, st) /\ is_difference a b p.
Proof.
  exists (SupportPoint a b (dir st)).
  split; [apply Support_run|apply SupportPoint_difference].
Qed.

(** The 3-point case (lines 192-259) in closed form. *)
Lemma ContainsOrigin_triangle_cases (c b a dir0 : vec) :
  let ab := glm.sub b a in
  let ac := glm.sub c a in
  let abc := glm.cross ab ac in
  let ao := glm.neg a in
  ContainsOrigin (mkState [c; b; a] dir0) =
  Some (false,
        if gt0 (glm.dot (glm.cross ab abc) ao) then
          mkState [b; a] (doubleCross ab ao)
        else if gt0 (glm.dot (glm.cross abc ac) ao) then
          mkState [c; a] (doubleCross ac ao)
        else if gt0 (glm.dot abc ao) then
          mkState [c; b; a] abc
        else
          mkState [b; c; a] (glm.neg abc)).
Proof.
  intros ab ac abc ao. unfold ContainsOrigin. run_vector.
  fold ab ac. fold abc. fold ao.
  destruct (gt0 (glm.dot (glm.cross ab abc) ao)); [reflexivity|].
  destruct (gt0 (glm.dot (glm.cross abc ac) ao)); [reflexivity|].
  destruct (gt0 (glm.dot abc ao)); reflexivity.
Qed.

(** [ContainsOrigin] on five points or more. *)
Lemma ContainsOrigin_large (x1 x2 x3 x4 x5 : vec) (l : list vec) (d0 : vec) :
  ContainsOrigin (mkState (x1 :: x2 :: x3 :: x4 :: x5 :: l) d0) =
  Some (false, mkState (x1 :: x2 :: x3 :: x4 :: x5 :: l) d0).
Proof.
  destruct (last_nonempty (x1 :: x2 :: x3 :: x4 :: x5 :: l)) as [v Hv];
    [discriminate|].
  unfold ContainsOrigin, bind, back, size, ret. cbn [simplex].
  rewrite Hv. reflexivity.
Qed.

(** A result [true] comes from four points and three failed face tests,
    and leaves the state as it was. *)
Lemma ContainsOrigin_true_inversion (st s' : State float) :
  ContainsOrigin st = Some (true, s') ->
  s' = st /\
  exists d c b a,
    simplex st = [d; c; b; a] /\
    gt0 (glm.dot (glm.cross (glm.sub b a) (glm.sub c a)) (glm.neg a)) = false /\
    gt0 (glm.dot (glm.cross (glm.sub c a) (glm.sub d a)) (glm.neg a)) = false /\
    gt0 (glm.dot (glm.cross (glm.sub d a) (glm.sub b a)) (glm.neg a)) = false.
Proof.
  destruct st as [l d0].
  destruct l as [|x1 [|x2 [|x3 [|x4 [|x5 l]]]]].
  - discriminate.
  - discriminate.
  - rewrite ContainsOrigin_line. discriminate.
  - rewrite ContainsOrigin_triangle_cases. discriminate.
  - rewrite ContainsOrigin_tetrahedron_cases. cbv zeta.
    destruct (gt0 _) eqn:E1; [rewrite checkTetrahedron_cases; discriminate|].
    destruct (gt0 _) eqn:E2 in |- *; [rewrite checkTetrahedron_cases; discriminate|].
    destruct (gt0 _) eqn:E3 in |- *; [rewrite checkTetrahedron_cases; discriminate|].
    intros E. injection E as <-. split; [reflexivity|].
    exists x1, x2, x3, x4. auto.
  - rewrite ContainsOrigin_large. discriminate.
Qed.

(** X2. [ContainsOrigin] returns [true] exactly when the simplex has four
    points [d; c; b; a] and none of the three face tests
    [dot(ab x ac, -a) > 0], [dot(ac x ad, -a) > 0], [dot(ad x ab, -a) > 0]
    holds; the simplex and [dir] are then left as they were. *)
Theorem ContainsOrigin_true_iff (st s' : State float) :
  ContainsOrigin st = Some (true, s') <->
  s' = st /\
  exists d c b a,
    simplex st = [d; c; b; a] /\
    gt0 (glm.dot (glm.cross (glm.sub b a) (glm.sub c a)) (glm.neg a)) = false /\
    gt0 (glm.dot (glm.cross (glm.sub c a) (glm.sub d a)) (glm.neg a)) = false /\
    gt0 (glm.dot (glm.cross (glm.sub d a) (glm.sub b a)) (glm.neg a)) = false.
Proof.
  split; [apply ContainsOrigin_true_inversion|].
  intros (-> & d & c & b & a & Hs & T1 & T2 & T3).
  destruct st as [l d0]. cbn [simplex] in Hs. subst l.
  rewrite ContainsOrigin_tetrahedron_cases. cbv zeta.
  rewrite T1, T2, T3. reflexivity.
Qed.

(** What [ContainsOrigin] does to the simplex, whatever its size. *)
Lemma ContainsOrigin_keeps (st : State float) (r : bool) (s' : State float) :
  ContainsOrigin st = Some (r, s') ->
  last (simplex s') = last (simplex st) /\
  (forall p, In p (simplex s') -> In p (simplex st)) /\
  length (simplex s') <= length (simplex st).
Proof.
  destruct st as [l d0].
  destruct l as [|x1 [|x2 [|x3 [|x4 [|x5 l]]]]].
  - discriminate.
  - intros E. injection E as <- <-. auto.
  - rewrite ContainsOrigin_line. intros E. injection E as <- <-. auto.
  - rewrite ContainsOrigin_triangle_cases. cbv zeta.
    repeat match goal with
           | |- context [if gt0 ?e then _ else _] => destruct (gt0 e)
           end;
      intros E; injection E as <- <-; simpl; (split; [reflexivity|]);
      (split; [intros p; tauto|lia]).
  - rewrite ContainsOrigin_tetrahedron_cases. cbv zeta.
    repeat match goal with
           | |- context [if gt0 ?e then _ else _] => destruct (gt0 e)
           end;
      rewrite ?checkTetrahedron_cases;
      repeat match goal with
             | |- context [if gt0 ?e then _ else _] => destruct (gt0 e)
             end;
      intros E; injection E as <- <-; simpl; (split; [reflexivity|]);
      (split; [intros p; tauto|lia]).
  - rewrite ContainsOrigin_large. intros E. injection E as <- <-. auto.
Qed.

(** X3. A call of [ContainsOrigin] that is defined never drops the newest
    point (the last element stays the last), never puts a point into the
    simplex that was not in it, and never makes the simplex longer. *)
Theorem ContainsOrigin_keeps_newest (st : State float) (r : bool)
        (s' : State float) :
  ContainsOrigin st = Some (r, s') ->
  last (simplex s') = last (simplex st) /\
  (forall p, In p (simplex s') -> In p (simplex st)) /\
  length (simplex s') <= length (simplex st).
Proof. apply ContainsOrigin_keeps. Qed.

Lemma pushed_differences (a b : OBB float) (s : State float) :
  (forall p, In p (simplex s) -> is_difference a b p) ->
  forall p, In p (simplex (pushed a b s)) -> is_difference a b p.
Proof.
  intros Hs p. unfold pushed. cbn [simplex]. rewrite in_app_iff.
  intros [Hp|[<-|[]]]; [apply Hs; exact Hp|apply SupportPoint_difference].
Qed.

Lemma body_differences (a b : OBB float) (s : State float) (r : Step)
      (s' : State float) :
  (forall p, In p (simplex s) -> is_difference a b p) ->
  TestGJK_body a b s = Some (r, s') ->
  forall p, In p (simplex s') -> is_difference a b p.
Proof.
  intros Hs. rewrite TestGJK_body_run.
  destruct (fle _ f0).
  - intros E. injection E as <- <-. apply pushed_differences. exact Hs.
  - destruct (ContainsOrigin (pushed a b s)) as [[v s1]|] eqn:Hc; [|discriminate].
    destruct (ContainsOrigin_keeps _ _ _ Hc) as (_ & Hsub & _).
    destruct v; intros E; injection E as <- <-;
      intros p Hp; apply (pushed_differences a b s Hs); apply Hsub; exact Hp.
Qed.

(** X4. However a call of [TestGJK] ends -- with a verdict or still
    running -- every point of the simplex is a difference
    [a.corners[i] - b.corners[j]] of two corners: nothing else is ever
    stored. *)
Theorem TestGJK_simplex_differences (fuel : nat) (a b : OBB float)
        (st : State float) (r : option bool) (s' : State float) :
  TestGJK fuel a b st = Some (r, s') ->
  forall p, In p (simplex s') -> is_difference a b p.
Proof.
  intros E.
  assert (H0 : forall v s0, TestGJK_prologue a b st = Some (v, s0) ->
                forall p, In p (simplex s0) -> is_difference a b p).
  { intros v s0. rewrite TestGJK_prologue_run.
    destruct (flt _ f0); intros E0; injection E0 as <- <-;
      intros p [<-|[<-|[]]]; apply SupportPoint_difference. }
  assert (Hn : forall n s0 s, (forall p, In p (simplex s0) -> is_difference a b p) ->
                passes n (TestGJK_body a b) s0 = Some s ->
                forall p, In p (simplex s) -> is_difference a b p).
  { intros n. apply (passes_invariant
      (fun s => forall p, In p (simplex s) -> is_difference a b p)).
    intros s s1 Hs Hb. exact (body_differences a b s Continue s1 Hs Hb). }
  destruct (TestGJK_outcome _ _ _ _ _ _ E)
    as [(Hp & _)|(s0 & Hp & [(_ & Hr)|(n & s & v & _ & Hr & Hb)])].
  - exact (H0 _ _ Hp).
  - exact (Hn _ _ _ (H0 _ _ Hp) Hr).
  - exact (body_differences a b s _ s' (Hn _ _ _ (H0 _ _ Hp) Hr) Hb).
Qed.

(** X5. No call of [TestGJK] reads or writes an element of the simplex
    that does not exist: for every number of passes the call is defined,
    with a verdict or still running. *)
Theorem TestGJK_no_undefined_access (fuel : nat) (a b : OBB float)
        (st : State float) :
  exists r s', TestGJK fuel a b st = Some (r, s').
Proof.
  unfold TestGJK, bind. rewrite TestGJK_prologue_run.
  destruct (flt _ f0); [eexists; eexists; reflexivity|].
  apply while_true_defined. left. reflexivity.
Qed.

(** X6. What the global simplex and [dir] hold when [TestGJK] is called
    has no influence on the call: verdict and final state are the same. *)
Theorem TestGJK_ignores_entry_state (fuel : nat) (a b : OBB float)
        (st st' : State float) :
  TestGJK fuel a b st = TestGJK fuel a b st'.
Proof. apply TestGJK_initial. Qed.

(** X7. The response of [update] to the verdict: an update that reverses
    the velocity sets [antiStuck], and the update after it leaves the
    velocity alone and clears the flag, whatever verdict it gets. *)
Theorem respond_not_twice (hit1 hit2 : bool) (s : Bounce) :
  velocity (respond hit1 s) <> velocity s ->
  antiStuck (respond hit1 s) = true /\
  velocity (respond hit2 (respond hit1 s)) = velocity (respond hit1 s) /\
  antiStuck (respond hit2 (respond hit1 s)) = false.
Proof.
  destruct s as [v stuck]. unfold respond. cbn [antiStuck velocity].
  destruct hit1, stuck; cbn; intros Hv; try congruence;
    destruct hit2; cbn; auto.
Qed.

End More.

(** ** In exact arithmetic *)

Ltac vec_unfold :=
  unfold doubleCross, combination4, zero3, P3 in *;
  unfold glm.dot, glm.cross, glm.sub, glm.neg, glm.splat in *;
  cbn [glm.x glm.y glm.z fadd fsub fmul fneg f0 f1 Z_FloatOps] in *.

Ltac vec_destruct :=
  repeat match goal with v : vec3 Z |- _ => destruct v as [? ? ?] end.

Section MoreExact.
Local Open Scope Z_scope.

Lemma gt0_true (s : Z) : gt0 s = true <-> 0 < s.
Proof. unfold gt0. simpl. rewrite Z.gtb_ltb. apply Z.ltb_lt. Qed.

Lemma gt0_false (s : Z) : gt0 s = false <-> s <= 0.
Proof. unfold gt0. simpl. rewrite Z.gtb_ltb. apply Z.ltb_ge. Qed.

Lemma fle_true (s : Z) : fle s f0 = true <-> s <= 0.
Proof. simpl. apply Z.leb_le. Qed.

Lemma fle_false (s : Z) : fle s f0 = false <-> 0 < s.
Proof. simpl. apply Z.leb_gt. Qed.

Lemma flt_true (s : Z) : flt s f0 = true <-> s < 0.
Proof. simpl. apply Z.ltb_lt. Qed.

Lemma dot_sub_l (p q d : vec3 Z) :
  glm.dot (glm.sub p q) d = glm.dot p d + glm.dot q (glm.neg d).
Proof. vec_destruct. vec_unfold. ring. Qed.

Lemma dot_neg_l (u v : vec3 Z) : glm.dot (glm.neg u) v = - glm.dot u v.
Proof. vec_destruct. vec_unfold. ring. Qed.

Lemma dot_zero_r (p : vec3 Z) : glm.dot p zero3 = 0.
Proof. vec_destruct. vec_unfold. ring. Qed.

Lemma dot_self_nonneg (w : vec3 Z) : 0 <= glm.dot w w.
Proof.
  vec_destruct. vec_unfold.
  match goal with |- 0 <= ?p * ?p + ?q * ?q + ?r * ?r =>
    pose proof (Z.square_nonneg p); pose proof (Z.square_nonneg q);
    pose proof (Z.square_nonneg r) end.
  lia.
Qed.

Lemma neg_neg (d : vec3 Z) : glm.neg (glm.neg d) = d.
Proof. vec_destruct. vec_unfold. f_equal; ring. Qed.

Lemma neg_sub (p q : vec3 Z) : glm.neg (glm.sub p q) = glm.sub q p.
Proof. vec_destruct. vec_unfold. f_equal; ring. Qed.

Lemma neg_cross (u v : vec3 Z) : glm.neg (glm.cross u v) = glm.cross v u.
Proof. vec_destruct. vec_unfold. f_equal; ring. Qed.

Lemma neg_zero : glm.neg zero3 = zero3.
Proof. reflexivity. Qed.

Lemma cross_sub_neg (p q : vec3 Z) :
  glm.cross (glm.sub p q) (glm.neg q) = glm.neg (glm.cross p q).
Proof. vec_destruct. vec_unfold. f_equal; ring. Qed.

Lemma cross_zero_l (u : vec3 Z) : glm.cross zero3 u = zero3.
Proof. vec_destruct. vec_unfold. f_equal; ring. Qed.

(** [((u x v) x u) . v] is the square of [u x v]. *)
Lemma doubleCross_square (u v : vec3 Z) :
  glm.dot (doubleCross u v) v = glm.dot (glm.cross u v) (glm.cross u v).
Proof. vec_destruct. vec_unfold. ring. Qed.

Lemma doubleCross_toward (u v : vec3 Z) : 0 <= glm.dot (doubleCross u v) v.
Proof. rewrite doubleCross_square. apply dot_self_nonneg. Qed.

Lemma doubleCross_perp (u v : vec3 Z) : glm.dot (doubleCross u v) u = 0.
Proof. vec_destruct. vec_unfold. ring. Qed.

Lemma farthest_max (obj : OBB Z) (d : vec3 Z) (i : nat) :
  (i < 8)%nat ->
  glm.dot (corners obj i) d <= glm.dot (getFarthestPointInDirection obj d) d.
Proof.
  intros Hi.
  rewrite getFarthestPointInDirection_spec by apply Z_ordered.
  apply ArgMaxPoint_spec_of_max.
  do 8 (destruct i as [|i]; [simpl; tauto|]). lia.
Qed.

Lemma SupportPoint_max (a b : OBB Z) (d : vec3 Z) (i j : nat) :
  (i < 8)%nat -> (j < 8)%nat ->
  glm.dot (glm.sub (corners a i) (corners b j)) d <= glm.dot (SupportPoint a b d) d.
Proof.
  intros Hi Hj. unfold SupportPoint. rewrite !dot_sub_l.
  pose proof (farthest_max a d i Hi).
  pose proof (farthest_max b (glm.neg d) j Hj).
  lia.
Qed.

(** The 2-point case: the new direction is perpendicular to the segment
    [ab] and does not point away from the origin as seen from [a]. *)
Lemma ContainsOrigin_line_perpendicular_exact (b a d0 : vec3 Z) :
  exists s', ContainsOrigin (mkState [b; a] d0) = Some (false, s') /\
    glm.dot (dir s') (glm.sub b a) = 0 /\
    0 <= glm.dot (dir s') (glm.neg a).
Proof.
  eexists. split; [apply ContainsOrigin_line|]. cbn [dir].
  split; [apply doubleCross_perp|apply doubleCross_toward].
Qed.

(** What a call of [ContainsOrigin] that returns [false] leaves behind,
    on three or four points of which [a] is the last: a direction that
    does not point away from the origin as seen from [a], and two points,
    or three points [d'; c'; a] with the direction [(c' - a) x (d' - a)]. *)
Lemma ContainsOrigin_false_outcome (st s' : State Z) (a : vec3 Z) :
  (length (simplex st) = 3 \/ length (simplex st) = 4)%nat ->
  last (simplex st) = Some a ->
  ContainsOrigin st = Some (false, s') ->
  0 <= glm.dot (dir s') (glm.neg a) /\
  (length (simplex s') = 2%nat \/
   exists d' c', simplex s' = [d'; c'; a] /\
                 dir s' = glm.cross (glm.sub c' a) (glm.sub d' a)).
Proof.
  destruct st as [l d0].
  destruct l as [|x1 [|x2 [|x3 [|x4 [|x5 l]]]]]; cbn [simplex length];
    intros [Hl|Hl]; try discriminate Hl; intros Ha; injection Ha as <-.
  - rewrite ContainsOrigin_triangle_cases. cbv zeta.
    destruct (gt0 _) eqn:E1.
    { intros E; injection E as <-. cbn [dir simplex length].
      split; [apply doubleCross_toward|left; reflexivity]. }
    destruct (gt0 _) eqn:E2 in |- *.
    { intros E; injection E as <-. cbn [dir simplex length].
      split; [apply doubleCross_toward|left; reflexivity]. }
    destruct (gt0 _) eqn:E3 in |- *.
    + intros E; injection E as <-. cbn [dir simplex length].
      apply gt0_true in E3. split; [lia|]. right. eauto.
    + intros E; injection E as <-. cbn [dir simplex length].
      apply gt0_false in E3. rewrite dot_neg_l. split; [lia|]. right.
      eexists; eexists. split; [reflexivity|]. apply neg_cross.
  - rewrite ContainsOrigin_tetrahedron_cases. cbv zeta.
    destruct (gt0 _) eqn:E1.
    { rewrite checkTetrahedron_cases.
      destruct (gt0 _) eqn:F1 in |- *.
      { intros E; injection E as <-. cbn [dir simplex length].
        split; [apply doubleCross_toward|left; reflexivity]. }
      destruct (gt0 _) eqn:F2 in |- *.
      { intros E; injection E as <-. cbn [dir simplex length].
        split; [apply doubleCross_toward|left; reflexivity]. }
      intros E; injection E as <-. cbn [dir simplex length].
      apply gt0_true in E1. split; [lia|]. right. eauto. }
    destruct (gt0 _) eqn:E2 in |- *.
    { rewrite checkTetrahedron_cases.
      destruct (gt0 _) eqn:F1 in |- *.
      { intros E; injection E as <-. cbn [dir simplex length].
        split; [apply doubleCross_toward|left; reflexivity]. }
      destruct (gt0 _) eqn:F2 in |- *.
      { intros E; injection E as <-. cbn [dir simplex length].
        split; [apply doubleCross_toward|left; reflexivity]. }
      intros E; injection E as <-. cbn [dir simplex length].
      apply gt0_true in E2. split; [lia|]. right. eauto. }
    destruct (gt0 _) eqn:E3 in |- *.
    { rewrite checkTetrahedron_cases.
      destruct (gt0 _) eqn:F1 in |- *.
      { intros E; injection E as <-. cbn [dir simplex length].
        split; [apply doubleCross_toward|left; reflexivity]. }
      destruct (gt0 _) eqn:F2 in |- *.
      { intros E; injection E as <-. cbn [dir simplex length].
        split; [apply doubleCross_toward|left; reflexivity]. }
      intros E; injection E as <-. cbn [dir simplex length].
      apply gt0_true in E3. split; [lia|]. right. eauto. }
    discriminate.
Qed.

(** Whenever [ContainsOrigin] returns [false] on a simplex of two, three
    or four points, the direction it leaves does not point away from the
    origin as seen from the newest point [a]. *)
Lemma ContainsOrigin_direction_toward_origin_exact (st s' : State Z) (a : vec3 Z) :
  (2 <= length (simplex st) <= 4)%nat ->
  last (simplex st) = Some a ->
  ContainsOrigin st = Some (false, s') ->
  0 <= glm.dot (dir s') (glm.neg a).
Proof.
  intros Hl Ha Hc.
  assert (Hcases : (length (simplex st) = 2 \/ length (simplex st) = 3 \/
                    length (simplex st) = 4)%nat) by lia.
  destruct Hcases as [H2|H34].
  - destruct st as [[|x1 [|x2 [|x3 l]]] d0]; try discriminate H2.
    cbn [simplex] in Ha. injection Ha as <-.
    rewrite ContainsOrigin_line in Hc. injection Hc as <-. cbn [dir].
    apply doubleCross_toward.
  - exact (proj1 (ContainsOrigin_false_outcome st s' a H34 Ha Hc)).
Qed.

(** The exit before the loop is a proof that the hulls are apart: every
    difference of corners has a negative dot product with the final
    [dir]. *)
Lemma TestGJK_prologue_exit_separates_exact (a b : OBB Z) (st s' : State Z)
        (i j : nat) :
  TestGJK_prologue a b st = Some (Return false, s') ->
  (i < 8)%nat -> (j < 8)%nat ->
  glm.dot (glm.sub (corners a i) (corners b j)) (dir s') < 0.
Proof.
  rewrite TestGJK_prologue_run.
  destruct (flt _ f0) eqn:Hlt; [|discriminate].
  intros E Hi Hj. injection E as <-. apply flt_true in Hlt.
  exact (Z.le_lt_trans _ _ _ (SupportPoint_max a b _ i j Hi Hj) Hlt).
Qed.

(** A verdict [false] comes with a certificate: no difference of corners
    has a positive dot product with the final [dir]. *)
Lemma TestGJK_false_certificate_exact (fuel : nat) (a b : OBB Z) (st s' : State Z)
        (i j : nat) :
  TestGJK fuel a b st = Some (Some false, s') ->
  (i < 8)%nat -> (j < 8)%nat ->
  glm.dot (glm.sub (corners a i) (corners b j)) (dir s') <= 0.
Proof.
  intros E Hi Hj.
  destruct (TestGJK_outcome _ _ _ _ _ _ E)
    as [(Hp & _)|(s0 & Hp & [(Hr & _)|(n & s & v & Hv & Hr & Hb)])].
  - rewrite TestGJK_prologue_run in Hp.
    destruct (flt _ f0) eqn:Hlt; [|discriminate].
    injection Hp as <-. apply flt_true in Hlt. apply Z.lt_le_incl.
    exact (Z.le_lt_trans _ _ _ (SupportPoint_max a b _ i j Hi Hj) Hlt).
  - discriminate.
  - injection Hv as <-. rewrite TestGJK_body_run in Hb.
    destruct (fle _ f0) eqn:Hle.
    + injection Hb as <-. apply fle_true in Hle.
      exact (Z.le_trans _ _ _ (SupportPoint_max a b _ i j Hi Hj) Hle).
    + destruct (ContainsOrigin (pushed a b s)) as [[[] s1]|]; discriminate.
Qed.

Lemma oriented_pushed_size (a b : OBB Z) (s : State Z) :
  oriented s ->
  (length (simplex (pushed a b s)) = 3 \/ length (simplex (pushed a b s)) = 4)%nat.
Proof.
  unfold pushed. cbn [simplex]. rewrite length_app. cbn [length].
  intros [H2|(d & c & p & -> & _)]; [lia|]. right. reflexivity.
Qed.

Lemma oriented_step (a b : OBB Z) (s s' : State Z) :
  oriented s -> TestGJK_body a b s = Some (Continue, s') -> oriented s'.
Proof.
  intros Hs Hb. apply TestGJK_body_continue in Hb. destruct Hb as (_ & Hc).
  destruct (ContainsOrigin_false_outcome (pushed a b s) s' (SupportPoint a b (dir s))
              (oriented_pushed_size a b s Hs)) as (Hdot & Hshape).
  - unfold pushed. cbn [simplex]. apply last_snoc.
  - exact Hc.
  - destruct Hshape as [H2|(d' & c' & Hsim & Hdir)]; [left; exact H2|].
    right. exists d', c', (SupportPoint a b (dir s)). auto.
Qed.

Lemma oriented_loop (n : nat) (a b : OBB Z) (st s0 s : State Z) :
  TestGJK_prologue a b st = Some (Continue, s0) ->
  passes n (TestGJK_body a b) s0 = Some s ->
  oriented s.
Proof.
  intros Hp. apply (passes_invariant oriented).
  - intros s1 s2. apply oriented_step.
  - rewrite TestGJK_prologue_run in Hp.
    destruct (flt _ f0); [discriminate|]. injection Hp as <-. left. reflexivity.
Qed.

(** The weights that place the origin in the tetrahedron [d; c; b; a]. *)
Lemma tetrahedron_weights (d c b a : vec3 Z) :
  let n := glm.cross (glm.sub c b) (glm.sub d b) in
  let wa := glm.dot n (glm.neg b) in
  let wb := - glm.dot (glm.cross (glm.sub c a) (glm.sub d a)) (glm.neg a) in
  let wc := - glm.dot (glm.cross (glm.sub d a) (glm.sub b a)) (glm.neg a) in
  let wd := - glm.dot (glm.cross (glm.sub b a) (glm.sub c a)) (glm.neg a) in
  combination4 wd wc wb wa d c b a = zero3 /\
  wd + wc + wb + wa = glm.dot a n + wa.
Proof.
  vec_destruct. vec_unfold. split; [f_equal; ring|ring].
Qed.

(** A verdict [true] is sound in exact arithmetic: the final simplex has
    four points, and the origin is a convex combination of them (weights
    that are not negative and not all zero). *)
Lemma TestGJK_true_sound_exact (fuel : nat) (a b : OBB Z) (st s' : State Z) :
  TestGJK fuel a b st = Some (Some true, s') ->
  exists p1 p2 p3 p4 w1 w2 w3 w4,
    simplex s' = [p1; p2; p3; p4] /\
    0 <= w1 /\ 0 <= w2 /\ 0 <= w3 /\ 0 <= w4 /\
    0 < w1 + w2 + w3 + w4 /\
    combination4 w1 w2 w3 w4 p1 p2 p3 p4 = zero3.
Proof.
  intros E.
  destruct (TestGJK_outcome _ _ _ _ _ _ E)
    as [(_ & Hr)|(s0 & Hp & [(Hr & _)|(n & s & v & Hv & Hr & Hb)])];
    try discriminate.
  injection Hv as <-.
  pose proof (oriented_loop n a b st s0 s Hp Hr) as Hs.
  rewrite TestGJK_body_run in Hb.
  destruct (fle _ f0) eqn:Hle; [discriminate|]. apply fle_false in Hle.
  destruct (ContainsOrigin (pushed a b s)) as [[[] s1]|] eqn:Hc; try discriminate.
  injection Hb as ->.
  apply ContainsOrigin_true_inversion in Hc.
  destruct Hc as (-> & d & c & q & p & Hsim & T1 & T2 & T3).
  unfold pushed in Hsim. cbn [simplex] in Hsim.
  destruct Hs as [H2|(d0 & c0 & b0 & Hs & Hdir & Hdot)].
  - apply (f_equal (@length _)) in Hsim. rewrite length_app in Hsim.
    cbn [length] in Hsim. lia.
  - rewrite Hs in Hsim. cbn [app] in Hsim.
    injection Hsim as -> -> -> Hp4.
    apply gt0_false in T1, T2, T3.
    destruct (tetrahedron_weights d c q p) as (Hcomb & Hsum).
    cbv zeta in Hcomb, Hsum.
    rewrite <- Hdir in Hcomb, Hsum. rewrite Hp4 in Hle.
    unfold pushed. cbn [simplex]. rewrite Hs. cbn [app]. rewrite Hp4.
    do 8 eexists. split; [reflexivity|].
    split; [|split; [|split; [|split; [|split; [|exact Hcomb]]]]]; lia.
Qed.

Lemma farthest_zero (obj : OBB Z) :
  getFarthestPointInDirection obj zero3 = corners obj 0.
Proof.
  unfold getFarthestPointInDirection. rewrite dot_zero_r.
  generalize (seq 1 7). intros idx.
  induction idx as [|i idx IH]; [reflexivity|].
  cbn [fold_left]. rewrite dot_zero_r. exact IH.
Qed.

Lemma SupportPoint_zero (a b : OBB Z) :
  SupportPoint a b zero3 = glm.sub (corners a 0) (corners b 0).
Proof. unfold SupportPoint. rewrite neg_zero, !farthest_zero. reflexivity. Qed.

Lemma TestGJK_body_zero (a b : OBB Z) (s : State Z) :
  dir s = zero3 ->
  TestGJK_body a b s =
  Some (Return false,
        mkState (simplex s ++ [glm.sub (corners a 0) (corners b 0)]) zero3).
Proof.
  intros Hd. rewrite TestGJK_body_run. unfold pushed. rewrite Hd.
  rewrite dot_zero_r, SupportPoint_zero. reflexivity.
Qed.

(** However a call ends, the simplex holds differences of corners. *)
Lemma TestGJK_differences (fuel : nat) (a b : OBB Z) (st : State Z)
      (r : option bool) (s' : State Z) :
  TestGJK fuel a b st = Some (r, s') ->
  forall p, In p (simplex s') -> is_difference a b p.
Proof.
  intros E.
  assert (H0 : forall v s0, TestGJK_prologue a b st = Some (v, s0) ->
                forall p, In p (simplex s0) -> is_difference a b p).
  { intros v s0. rewrite TestGJK_prologue_run.
    destruct (flt _ f0); intros E0; injection E0 as <- <-;
      intros p [<-|[<-|[]]]; apply SupportPoint_difference. }
  assert (Hn : forall n s0 s, (forall p, In p (simplex s0) -> is_difference a b p) ->
                passes n (TestGJK_body a b) s0 = Some s ->
                forall p, In p (simplex s) -> is_difference a b p).
  { intros n. apply (passes_invariant
      (fun s => forall p, In p (simplex s) -> is_difference a b p)).
    intros s s1 Hs Hb. exact (body_differences a b s Continue s1 Hs Hb). }
  destruct (TestGJK_outcome _ _ _ _ _ _ E)
    as [(Hp & _)|(s0 & Hp & [(_ & Hr)|(n & s & v & _ & Hr & Hb)])].
  - exact (H0 _ _ Hp).
  - exact (Hn _ _ _ (H0 _ _ Hp) Hr).
  - exact (body_differences a b s _ s' (Hn _ _ _ (H0 _ _ Hp) Hr) Hb).
Qed.

(** When the first two support points and the origin lie on one line
    ([p1 x p2 = 0]) and the exit before the loop is not taken, line 363
    computes the zero direction and the call returns [false] in its first
    pass -- also when the origin lies between the two points. *)
Lemma TestGJK_collinear_start_exact (k : nat) (a b : OBB Z) (st : State Z) :
  let p1 := SupportPoint a b (glm.splat f1) in
  let p2 := SupportPoint a b (glm.neg p1) in
  flt (glm.dot p2 (glm.neg p1)) f0 = false ->
  glm.cross p1 p2 = zero3 ->
  TestGJK (S k) a b st =
  Some (Some false,
        mkState [p1; p2; glm.sub (corners a 0) (corners b 0)] zero3).
Proof.
  intros p1 p2 Hlt Hc. unfold TestGJK, bind.
  rewrite TestGJK_prologue_run. fold p1 p2. rewrite Hlt.
  unfold doubleCross. rewrite cross_sub_neg, Hc, neg_zero, cross_zero_l.
  cbn [while_true]. unfold bind.
  rewrite TestGJK_body_zero by reflexivity. reflexivity.
Qed.




End MoreExact.

(** ** In single precision, on boxes with small integer corners

    For two boxes whose corners have integer coordinates of magnitude at
    most 10, every value that [TestGJK] computes is an integer of
    magnitude at most 15 360 000: single precision computes it exactly,
    and the run is the run of exact arithmetic.  The properties of exact
    arithmetic above are properties of the [float] code on such boxes. *)

Section Small.
Local Open Scope Z_scope.

Variable inexact : Z -> Z.

Local Abbreviation float_ops := (Single_FloatOps inexact).

Lemma single_exact (r : Z) : within 16777216 r -> single inexact r = r.
Proof.
  unfold within. intros H. unfold single.
  replace (Z.abs r <=? 16777216) with true; [reflexivity|].
  symmetry. apply Z.leb_le. lia.
Qed.

Lemma mul_bound (x y K L : Z) : within K x -> within L y -> within (K * L) (x * y).
Proof.
  unfold within. intros Hx Hy.
  assert (Z.abs (x * y) <= K * L); [|lia].
  rewrite Z.abs_mul. apply Z.mul_le_mono_nonneg; lia.
Qed.

Lemma smallb_small (K : Z) (v : vec3 Z) : smallb K v = true -> small K v.
Proof.
  unfold smallb, small, within. rewrite !andb_true_iff, !Z.leb_le. lia.
Qed.

Lemma small_weaken (K L : Z) (v : vec3 Z) : K <= L -> small K v -> small L v.
Proof. unfold small, within. lia. Qed.

Lemma small_neg (K : Z) (v : vec3 Z) : small K v -> small K (glm.neg v).
Proof. destruct v. unfold small, within, glm.neg. simpl. lia. Qed.

Lemma sub_bound (K L : Z) (p q : vec3 Z) :
  small K p -> small L q -> small (K + L) (glm.sub p q).
Proof. destruct p, q. unfold small, within, glm.sub. simpl. lia. Qed.

Lemma sub_single (K L : Z) (p q : vec3 Z) :
  small K p -> small L q -> K + L <= 16777216 ->
  glm.sub (ops := float_ops) p q = glm.sub p q.
Proof.
  destruct p, q. unfold small, within, glm.sub. simpl. intros Hp Hq HKL.
  f_equal; apply single_exact; unfold within; lia.
Qed.

Lemma cross_bound (K L : Z) (u v : vec3 Z) :
  small K u -> small L v -> small (2 * (K * L)) (glm.cross u v).
Proof.
  destruct u as [ux uy uz], v as [vx vy vz]. unfold small, glm.cross. simpl.
  intros (Hx & Hy & Hz) (Gx & Gy & Gz).
  pose proof (mul_bound uy vz K L Hy Gz) as B1.
  pose proof (mul_bound vy uz L K Gy Hz) as B2.
  pose proof (mul_bound uz vx K L Hz Gx) as B3.
  pose proof (mul_bound vz ux L K Gz Hx) as B4.
  pose proof (mul_bound ux vy K L Hx Gy) as B5.
  pose proof (mul_bound vx uy L K Gx Hy) as B6.
  rewrite (Z.mul_comm L K) in B2, B4, B6.
  clear Hx Hy Hz Gx Gy Gz. unfold within in *.
  generalize dependent (K * L). intros. lia.
Qed.

Lemma cross_single (K L : Z) (u v : vec3 Z) :
  small K u -> small L v -> 2 * (K * L) <= 16777216 ->
  glm.cross (ops := float_ops) u v = glm.cross u v.
Proof.
  destruct u as [ux uy uz], v as [vx vy vz]. unfold small, glm.cross. simpl.
  intros (Hx & Hy & Hz) (Gx & Gy & Gz) HKL.
  pose proof (mul_bound uy vz K L Hy Gz) as B1.
  pose proof (mul_bound vy uz L K Gy Hz) as B2.
  pose proof (mul_bound uz vx K L Hz Gx) as B3.
  pose proof (mul_bound vz ux L K Gz Hx) as B4.
  pose proof (mul_bound ux vy K L Hx Gy) as B5.
  pose proof (mul_bound vx uy L K Gx Hy) as B6.
  rewrite (Z.mul_comm L K) in B2, B4, B6.
  clear Hx Hy Hz Gx Gy Gz. unfold within in *.
  generalize dependent (K * L). intros KL B1 B2 B3 B4 B5 B6 HKL.
  generalize dependent (uy * vz). generalize dependent (vy * uz).
  generalize dependent (uz * vx). generalize dependent (vz * ux).
  generalize dependent (ux * vy). generalize dependent (vx * uy).
  intros.
  rewrite !(single_exact z), !(single_exact z0), !(single_exact z1),
    !(single_exact z2), !(single_exact z3), !(single_exact z4)
    by (unfold within; lia).
  f_equal; apply single_exact; unfold within; lia.
Qed.

Lemma dot_single (K L : Z) (u v : vec3 Z) :
  small K u -> small L v -> 3 * (K * L) <= 16777216 ->
  glm.dot (ops := float_ops) u v = glm.dot u v.
Proof.
  destruct u as [ux uy uz], v as [vx vy vz]. unfold small, glm.dot. simpl.
  intros (Hx & Hy & Hz) (Gx & Gy & Gz) HKL.
  pose proof (mul_bound ux vx K L Hx Gx) as B1.
  pose proof (mul_bound uy vy K L Hy Gy) as B2.
  pose proof (mul_bound uz vz K L Hz Gz) as B3.
  clear Hx Hy Hz Gx Gy Gz. unfold within in *.
  generalize dependent (K * L). intros KL B1 B2 B3 HKL.
  generalize dependent (ux * vx). generalize dependent (uy * vy).
  generalize dependent (uz * vz). intros.
  rewrite (single_exact z), (single_exact z0), (single_exact z1)
    by (unfold within; lia).
  rewrite (single_exact (z1 + z0)) by (unfold within; lia).
  apply single_exact. unfold within. lia.
Qed.

Lemma small_box_corner (a : OBB Z) (i : nat) :
  small_box a = true -> (i < 8)%nat -> small 10 (corners a i).
Proof.
  unfold small_box. rewrite forallb_forall. intros H Hi.
  apply smallb_small. apply H. apply in_seq. lia.
Qed.

(** The bound of a vector, found from the shape of the term. *)
Ltac bound :=
  lazymatch goal with
  | |- small _ (glm.neg _) => apply small_neg; bound
  | |- small _ (glm.sub _ _) => eapply sub_bound; bound
  | |- small _ (glm.cross _ _) => eapply cross_bound; bound
  | |- small _ (doubleCross _ _) => unfold doubleCross; bound
  | |- small _ _ => eassumption
  end.

(** Replaces, innermost first, the operations of single precision by the
    exact ones where the bounds show that they agree. *)
Ltac to_exact :=
  repeat match goal with
  | |- context [@glm.sub Z (Single_FloatOps ?f) ?p ?q] =>
      erewrite (sub_single _ _ p q); [|bound|bound|lia]
  | |- context [@glm.cross Z (Single_FloatOps ?f) ?p ?q] =>
      erewrite (cross_single _ _ p q); [|bound|bound|lia]
  | |- context [@glm.dot Z (Single_FloatOps ?f) ?p ?q] =>
      erewrite (dot_single _ _ p q); [|bound|bound|lia]
  | |- context [@glm.neg Z (Single_FloatOps ?f) ?p] =>
      change (@glm.neg Z (Single_FloatOps f) p) with (@glm.neg Z Z_FloatOps p)
  | |- context [@doubleCross Z (Single_FloatOps ?f) ?p ?q] =>
      unfold doubleCross at 1
  | |- context [@gt0 Z (Single_FloatOps ?f) ?x] =>
      change (@gt0 Z (Single_FloatOps f) x) with (@gt0 Z Z_FloatOps x)
  end.

(** On two, three or four points of magnitude at most 20, [ContainsOrigin]
    in single precision is [ContainsOrigin] in exact arithmetic. *)
Lemma ContainsOrigin_single (st : State Z) :
  (2 <= length (simplex st) <= 4)%nat ->
  (forall p, In p (simplex st) -> small 20 p) ->
  ContainsOrigin (ops := float_ops) st = ContainsOrigin (ops := Z_FloatOps) st.
Proof.
  destruct st as [l d0].
  destruct l as [|x1 [|x2 [|x3 [|x4 [|x5 l]]]]]; cbn [simplex length];
    intros Hl Hs; try lia.
  - assert (small 20 x1) by (apply Hs; simpl; auto).
    assert (small 20 x2) by (apply Hs; simpl; auto).
    rewrite !ContainsOrigin_line. to_exact. reflexivity.
  - assert (small 20 x1) by (apply Hs; simpl; auto).
    assert (small 20 x2) by (apply Hs; simpl; auto).
    assert (small 20 x3) by (apply Hs; simpl; auto).
    rewrite !ContainsOrigin_triangle_cases. cbv zeta. to_exact. reflexivity.
  - assert (small 20 x1) by (apply Hs; simpl; auto).
    assert (small 20 x2) by (apply Hs; simpl; auto).
    assert (small 20 x3) by (apply Hs; simpl; auto).
    assert (small 20 x4) by (apply Hs; simpl; auto).
    rewrite !ContainsOrigin_tetrahedron_cases. cbv zeta.
    rewrite !checkTetrahedron_cases. to_exact. reflexivity.
Qed.

Lemma farthest_single (obj : OBB Z) (d : vec3 Z) (L : Z) :
  small_box obj = true -> small L d -> 3 * (10 * L) <= 16777216 ->
  getFarthestPointInDirection (ops := float_ops) obj d =
  getFarthestPointInDirection (ops := Z_FloatOps) obj d.
Proof.
  intros Hobj Hd HL. unfold getFarthestPointInDirection.
  assert (Hdot : forall i, (i < 8)%nat ->
            glm.dot (ops := float_ops) (corners obj i) d =
            glm.dot (corners obj i) d).
  { intros i Hi. apply (dot_single 10 L); auto using small_box_corner. }
  rewrite (Hdot 0%nat) by lia.
  assert (Hidx : Forall (fun i => (i < 8)%nat) (seq 1 7)) by (repeat constructor; lia).
  revert Hidx. generalize (seq 1 7).
  generalize (glm.dot (corners obj 0) d, corners obj 0).
  intros acc idx. revert acc. induction idx as [|i idx IH]; intros acc Hidx;
    [reflexivity|].
  inversion Hidx as [|? ? Hi Hrest]; subst. cbn [fold_left].
  rewrite (Hdot i Hi). destruct acc as [m p]. apply IH. exact Hrest.
Qed.

Lemma farthest_small (obj : OBB Z) (d : vec3 Z) :
  small_box obj = true -> small 10 (getFarthestPointInDirection obj d).
Proof.
  intros Hobj. destruct (farthest_corner obj d) as (i & Hi & ->).
  apply small_box_corner; assumption.
Qed.

Lemma SupportPoint_small (a b : OBB Z) (d : vec3 Z) :
  small_box a = true -> small_box b = true -> small 20 (SupportPoint a b d).
Proof.
  intros Ha Hb. unfold SupportPoint.
  apply (sub_bound 10 10); apply farthest_small; assumption.
Qed.

Lemma SupportPoint_single (a b : OBB Z) (d : vec3 Z) (L : Z) :
  small_box a = true -> small_box b = true ->
  small L d -> 3 * (10 * L) <= 16777216 ->
  SupportPoint (ops := float_ops) a b d = SupportPoint (ops := Z_FloatOps) a b d.
Proof.
  intros Ha Hb Hd HL. unfold SupportPoint.
  rewrite (farthest_single a d L) by assumption.
  change (@glm.neg Z float_ops d) with (@glm.neg Z Z_FloatOps d).
  rewrite (farthest_single b (glm.neg d) L) by auto using small_neg.
  apply (sub_single 10 10); [apply farthest_small; assumption..|lia].
Qed.

Lemma pushed_single (a b : OBB Z) (s : State Z) :
  small_box a = true -> small_box b = true -> tame s ->
  pushed (ops := float_ops) a b s = pushed (ops := Z_FloatOps) a b s.
Proof.
  intros Ha Hb (_ & _ & Hd). unfold pushed.
  rewrite (SupportPoint_single a b (dir s) 128000) by (assumption || lia).
  reflexivity.
Qed.

Lemma pushed_small (a b : OBB Z) (s : State Z) :
  small_box a = true -> small_box b = true -> tame s ->
  (3 <= length (simplex (pushed a b s)) <= 4)%nat /\
  forall p, In p (simplex (pushed a b s)) -> small 20 p.
Proof.
  intros Ha Hb (Hl & Hs & _). unfold pushed. cbn [simplex].
  rewrite length_app. cbn [length]. split; [lia|].
  intros p. rewrite in_app_iff. intros [Hp|[<-|[]]]; [auto|].
  apply SupportPoint_small; assumption.
Qed.

(** What [ContainsOrigin] leaves, returning [false], on three or four
    points of magnitude at most 20 is tame. *)
Lemma ContainsOrigin_tame (st s' : State Z) :
  (3 <= length (simplex st) <= 4)%nat ->
  (forall p, In p (simplex st) -> small 20 p) ->
  ContainsOrigin st = Some (false, s') -> tame s'.
Proof.
  intros Hl Hs Hc.
  destruct (ContainsOrigin_keeps _ _ _ Hc) as (_ & Hsub & _).
  destruct (ContainsOrigin_sizes st) as (r & s1 & E & _ & Hf); [lia|].
  rewrite E in Hc. injection Hc as -> ->. specialize (Hf eq_refl).
  split; [exact Hf|]. split; [auto|].
  revert E. destruct st as [l d0].
  destruct l as [|x1 [|x2 [|x3 [|x4 [|x5 l]]]]]; cbn [simplex length] in *; try lia.
  - assert (small 20 x1) by (apply Hs; simpl; auto).
    assert (small 20 x2) by (apply Hs; simpl; auto).
    assert (small 20 x3) by (apply Hs; simpl; auto).
    rewrite ContainsOrigin_triangle_cases. cbv zeta.
    repeat match goal with
           | |- context [if gt0 ?e then _ else _] => destruct (gt0 e)
           end;
      intros E; injection E as <-; cbn [dir];
      (eapply small_weaken; [|bound]); lia.
  - assert (small 20 x1) by (apply Hs; simpl; auto).
    assert (small 20 x2) by (apply Hs; simpl; auto).
    assert (small 20 x3) by (apply Hs; simpl; auto).
    assert (small 20 x4) by (apply Hs; simpl; auto).
    rewrite ContainsOrigin_tetrahedron_cases. cbv zeta.
    repeat match goal with
           | |- context [if gt0 ?e then _ else _] => destruct (gt0 e)
           end;
      rewrite ?checkTetrahedron_cases;
      repeat match goal with
             | |- context [if gt0 ?e then _ else _] => destruct (gt0 e)
             end;
      intros E; try discriminate E; injection E as <-; cbn [dir];
      (eapply small_weaken; [|bound]); lia.
Qed.

Lemma TestGJK_body_single (a b : OBB Z) (s : State Z) :
  small_box a = true -> small_box b = true -> tame s ->
  TestGJK_body (ops := float_ops) a b s = TestGJK_body (ops := Z_FloatOps) a b s.
Proof.
  intros Ha Hb Hs. rewrite !TestGJK_body_run.
  rewrite pushed_single by assumption.
  destruct (pushed_small a b s Ha Hb Hs) as (Hl & Hp).
  rewrite ContainsOrigin_single by (assumption || lia).
  destruct Hs as (_ & _ & Hd).
  rewrite (SupportPoint_single a b (dir s) 128000) by (assumption || lia).
  rewrite (dot_single 20 128000);
    [reflexivity|apply SupportPoint_small; assumption|assumption|lia].
Qed.

Lemma TestGJK_body_tame (a b : OBB Z) (s s' : State Z) :
  small_box a = true -> small_box b = true -> tame s ->
  TestGJK_body a b s = Some (Continue, s') -> tame s'.
Proof.
  intros Ha Hb Hs Hbody. apply TestGJK_body_continue in Hbody.
  destruct Hbody as (_ & Hc).
  destruct (pushed_small a b s Ha Hb Hs) as (Hl & Hp).
  exact (ContainsOrigin_tame _ _ Hl Hp Hc).
Qed.


Lemma while_true_single (a b : OBB Z) (fuel : nat) (s : State Z) :
  small_box a = true -> small_box b = true -> tame s ->
  while_true fuel (TestGJK_body (ops := float_ops) a b) s =
  while_true fuel (TestGJK_body (ops := Z_FloatOps) a b) s.
Proof.
  intros Ha Hb. revert s. induction fuel as [|fuel IH]; intros s Hs; [reflexivity|].
  cbn [while_true]. unfold bind. rewrite TestGJK_body_single by assumption.
  destruct (TestGJK_body a b s) as [[[v|] s1]|] eqn:E; try reflexivity.
  apply IH. exact (TestGJK_body_tame a b s s1 Ha Hb Hs E).
Qed.

Lemma splat_small : small 1 (@glm.splat Z (@f1 Z Z_FloatOps)).
Proof. unfold small, within, glm.splat. simpl. lia. Qed.

Lemma TestGJK_prologue_single (a b : OBB Z) (st : State Z) :
  small_box a = true -> small_box b = true ->
  TestGJK_prologue (ops := float_ops) a b st =
  TestGJK_prologue (ops := Z_FloatOps) a b st.
Proof.
  intros Ha Hb. rewrite !TestGJK_prologue_run. cbv zeta.
  pose proof splat_small as H1.
  change (@f1 Z float_ops) with (@f1 Z Z_FloatOps).
  rewrite (SupportPoint_single a b (glm.splat f1) 1) by (assumption || lia).
  set (p1 := SupportPoint (ops := Z_FloatOps) a b (glm.splat f1)).
  assert (Hp1 : small 20 p1) by (apply SupportPoint_small; assumption).
  change (@glm.neg Z float_ops p1) with (@glm.neg Z Z_FloatOps p1).
  rewrite (SupportPoint_single a b (glm.neg p1) 20)
    by (assumption || (apply small_neg; assumption) || lia).
  set (p2 := SupportPoint (ops := Z_FloatOps) a b (glm.neg p1)).
  assert (Hp2 : small 20 p2) by (apply SupportPoint_small; assumption).
  to_exact. reflexivity.
Qed.

Lemma TestGJK_prologue_tame (a b : OBB Z) (st s : State Z) :
  small_box a = true -> small_box b = true ->
  TestGJK_prologue a b st = Some (Continue, s) -> tame s.
Proof.
  intros Ha Hb. rewrite TestGJK_prologue_run. cbv zeta.
  destruct (flt _ f0); [discriminate|]. intros E. injection E as <-.
  set (p1 := SupportPoint a b (glm.splat f1)).
  assert (Hp1 : small 20 p1) by (apply SupportPoint_small; assumption).
  set (p2 := SupportPoint a b (glm.neg p1)).
  assert (Hp2 : small 20 p2) by (apply SupportPoint_small; assumption).
  split; [left; reflexivity|]. split.
  - intros p [<-|[<-|[]]]; assumption.
  - cbn [dir]. eapply small_weaken; [|bound]. lia.
Qed.

(** For boxes with small integer corners, the call in single precision is
    the call in exact arithmetic. *)
Lemma TestGJK_single (fuel : nat) (a b : OBB Z) (st : State Z) :
  small_box a = true -> small_box b = true ->
  TestGJK (ops := float_ops) fuel a b st = TestGJK (ops := Z_FloatOps) fuel a b st.
Proof.
  intros Ha Hb. unfold TestGJK, bind.
  rewrite TestGJK_prologue_single by assumption.
  destruct (TestGJK_prologue a b st) as [[[v|] s0]|] eqn:E; try reflexivity.
  apply while_true_single; try assumption.
  exact (TestGJK_prologue_tame a b st s0 Ha Hb E).
Qed.



(** X10. In single precision, on two points [b; a] with integer
    coordinates of magnitude at most 20 (differences of corners of two
    small boxes are such points), the direction that [ContainsOrigin]
    computes is perpendicular to the segment [ab] and does not point away
    from the origin as seen from [a]. *)
Theorem ContainsOrigin_line_perpendicular (b a d0 : vec3 Z) :
  smallb 20 b = true -> smallb 20 a = true ->
  exists s', ContainsOrigin (ops := float_ops) (mkState [b; a] d0) = Some (false, s') /\
    glm.dot (dir s') (glm.sub b a) = 0 /\
    0 <= glm.dot (dir s') (glm.neg a).
Proof.
  intros Hb Ha. apply smallb_small in Hb, Ha. rewrite ContainsOrigin_single.
  - apply ContainsOrigin_line_perpendicular_exact.
  - simpl. lia.
  - intros p [<-|[<-|[]]]; assumption.
Qed.

(** X11. In single precision, whenever [ContainsOrigin] returns [false]
    on two, three or four points with integer coordinates of magnitude at
    most 20, the direction it leaves does not point away from the origin
    as seen from the newest point [a]: [dot(dir, -a) >= 0]. *)
Theorem ContainsOrigin_direction_toward_origin (st s' : State Z) (a : vec3 Z) :
  (2 <= length (simplex st) <= 4)%nat ->
  forallb (smallb 20) (simplex st) = true ->
  last (simplex st) = Some a ->
  ContainsOrigin (ops := float_ops) st = Some (false, s') ->
  0 <= glm.dot (dir s') (glm.neg a).
Proof.
  intros Hl Hs Ha. rewrite forallb_forall in Hs.
  rewrite ContainsOrigin_single;
    [|assumption|intros p Hp; apply smallb_small; auto].
  apply ContainsOrigin_direction_toward_origin_exact; assumption.
Qed.

(** X12. In single precision, for two boxes with integer corners of
    magnitude at most 10: the exit before the loop is a proof that the
    hulls are apart -- every difference of corners has a negative dot
    product with the final [dir]. *)
Theorem TestGJK_prologue_exit_separates (a b : OBB Z) (st s' : State Z)
        (i j : nat) :
  small_box a = true -> small_box b = true ->
  TestGJK_prologue (ops := float_ops) a b st = Some (Return false, s') ->
  (i < 8)%nat -> (j < 8)%nat ->
  glm.dot (glm.sub (corners a i) (corners b j)) (dir s') < 0.
Proof.
  intros Ha Hb. rewrite TestGJK_prologue_single by assumption.
  apply TestGJK_prologue_exit_separates_exact.
Qed.

(** X13. In single precision, for two boxes with integer corners of
    magnitude at most 10: a verdict [false] comes with a certificate -- no
    difference of corners has a positive dot product with the final
    [dir]. *)
Theorem TestGJK_false_certificate (fuel : nat) (a b : OBB Z) (st s' : State Z)
        (i j : nat) :
  small_box a = true -> small_box b = true ->
  TestGJK (ops := float_ops) fuel a b st = Some (Some false, s') ->
  (i < 8)%nat -> (j < 8)%nat ->
  glm.dot (glm.sub (corners a i) (corners b j)) (dir s') <= 0.
Proof.
  intros Ha Hb. rewrite TestGJK_single by assumption.
  apply TestGJK_false_certificate_exact.
Qed.

(** X14. In single precision, for two boxes with integer corners of
    magnitude at most 10: a verdict [true] is sound -- the final simplex
    has four points, each a difference of two corners, and the origin is a
    convex combination of them (weights that are not negative and not all
    zero). *)
Theorem TestGJK_true_sound (fuel : nat) (a b : OBB Z) (st s' : State Z) :
  small_box a = true -> small_box b = true ->
  TestGJK (ops := float_ops) fuel a b st = Some (Some true, s') ->
  exists p1 p2 p3 p4 w1 w2 w3 w4,
    simplex s' = [p1; p2; p3; p4] /\
    is_difference a b p1 /\ is_difference a b p2 /\
    is_difference a b p3 /\ is_difference a b p4 /\
    0 <= w1 /\ 0 <= w2 /\ 0 <= w3 /\ 0 <= w4 /\
    0 < w1 + w2 + w3 + w4 /\
    combination4 w1 w2 w3 w4 p1 p2 p3 p4 = zero3.
Proof.
  intros Ha Hb E. rewrite TestGJK_single in E by assumption.
  pose proof (TestGJK_differences _ _ _ _ _ _ E) as Hd.
  destruct (TestGJK_true_sound_exact _ _ _ _ _ E)
    as (p1 & p2 & p3 & p4 & w1 & w2 & w3 & w4 & Hs & H1 & H2 & H3 & H4 & Hw & Hc).
  exists p1, p2, p3, p4, w1, w2, w3, w4. rewrite Hs in Hd.
  split; [exact Hs|].
  repeat (split; [apply Hd; simpl; tauto|]).
  auto 10.
Qed.

(** X16. In single precision, for two boxes with integer corners of
    magnitude at most 10: when the first two support points and the
    origin lie on one line ([p1 x p2 = 0]) and the exit before the loop
    is not taken, line 363 computes the zero direction and the call
    returns [false] in its first pass -- also when the origin lies
    between the two points. *)
Theorem TestGJK_collinear_start (k : nat) (a b : OBB Z) (st : State Z) :
  small_box a = true -> small_box b = true ->
  let p1 := SupportPoint (ops := float_ops) a b (glm.splat f1) in
  let p2 := SupportPoint (ops := float_ops) a b (glm.neg p1) in
  flt (glm.dot (ops := float_ops) p2 (glm.neg p1)) f0 = false ->
  glm.cross p1 p2 = zero3 ->
  TestGJK (ops := float_ops) (S k) a b st =
  Some (Some false,
        mkState [p1; p2; glm.sub (corners a 0) (corners b 0)] zero3).
Proof.
  intros Ha Hb p1 p2. subst p1 p2.
  pose proof splat_small as H1.
  change (@f1 Z float_ops) with (@f1 Z Z_FloatOps).
  rewrite (SupportPoint_single a b (glm.splat f1) 1) by (assumption || lia).
  set (p1 := SupportPoint a b (glm.splat f1)).
  assert (Hp1 : small 20 p1) by (apply SupportPoint_small; assumption).
  change (@glm.neg Z float_ops p1) with (@glm.neg Z Z_FloatOps p1).
  rewrite (SupportPoint_single a b (glm.neg p1) 20)
    by (assumption || (apply small_neg; assumption) || lia).
  set (p2 := SupportPoint a b (glm.neg p1)).
  assert (Hp2 : small 20 p2) by (apply SupportPoint_small; assumption).
  rewrite (dot_single 20 20)
    by (assumption || (apply small_neg; assumption) || lia).
  rewrite TestGJK_single by assumption.
  change (@f0 Z float_ops) with (@f0 Z Z_FloatOps).
  apply (TestGJK_collinear_start_exact k a b st).
Qed.


End Small.

(** ** In binary32 *)

Section NotExceeded.
Context {float : Type} {ops : FloatOps float}.

(** What the loop of [getFarthestPointInDirection] needs of [>] to end on
    a point that no point exceeds: that it is irreflexive and transitive.
    The comparison of IEEE arithmetic is, NaN included. *)
Hypothesis fgt_irrefl : forall x : float, fgt x x = false.
Hypothesis fgt_trans :
  forall x y z : float, fgt x y = true -> fgt y z = true -> fgt x z = true.



End NotExceeded.

Section Binary32.



Lemma SFopp_involutive (x : spec_float) : SFopp (SFopp x) = x.
Proof. destruct x as [s|s| |s m e]; simpl; rewrite ?negb_involutive; reflexivity. Qed.

Lemma neg_neg_binary32 (d : vec3 spec_float) : glm.neg (glm.neg d) = d.
Proof.
  destruct d as [x y z]. unfold glm.neg. simpl. rewrite !SFopp_involutive.
  reflexivity.
Qed.

(** Rounding does not look at the sign. *)
Lemma binary_round_aux_opp (s : bool) (m e : Z) (l : location) :
  SFopp (binary_round_aux 24 128 s m e l) = binary_round_aux 24 128 (negb s) m e l.
Proof.
  unfold binary_round_aux.
  destruct (shr_fexp 24 128 m e l) as [mrs' e'].
  destruct (shr_fexp 24 128 _ e' loc_Exact) as [mrs'' e''].
  destruct (shr_m mrs'') as [|p|p]; [reflexivity| |reflexivity].
  destruct (e'' <=? 128 - 24)%Z; reflexivity.
Qed.

Lemma binary_round_opp (s : bool) (m : positive) (e : Z) :
  SFopp (binary_round 24 128 s m e) = binary_round 24 128 (negb s) m e.
Proof.
  unfold binary_round.
  destruct (shl_align m e _) as [mz ez]. apply binary_round_aux_opp.
Qed.

Lemma binary_normalize_opp (m e : Z) :
  same_number (SFopp (binary_normalize 24 128 m e false))
              (binary_normalize 24 128 (- m) e false).
Proof.
  destruct m as [|p|p]; simpl.
  - right. split; reflexivity.
  - left. apply binary_round_opp.
  - left. apply binary_round_opp.
Qed.

(** [-(x - y)] is [y - x], up to the sign of a zero. *)
Lemma SFopp_SFsub (x y : spec_float) :
  same_number (SFopp (SFsub 24 128 x y)) (SFsub 24 128 y x).
Proof.
  destruct x as [sx|sx| |sx mx ex], y as [sy|sy| |sy my ey];
    try (left; reflexivity);
    try (destruct sx, sy; simpl; (left; reflexivity) || (right; split; reflexivity)).
  unfold SFsub. rewrite (Z.min_comm ey ex).
  match goal with
  | |- same_number (SFopp (binary_normalize _ _ (?A - ?B)%Z ?e false)) _ =>
      replace (B - A)%Z with (- (A - B))%Z by ring
  end.
  apply binary_normalize_opp.
Qed.

(** X9. In binary32, for all boxes and directions: swapping the two hulls
    and reversing the direction negates the support point,
    [Support(b, a, -dir) = -Support(a, b, dir)], in every coordinate up to
    the sign of a zero ([-(x - x)] is [-0], [x - x] is [+0]). *)
Theorem SupportPoint_swap (a b : OBB spec_float) (d : vec3 spec_float) :
  same_vector (glm.neg (SupportPoint a b d)) (SupportPoint b a (glm.neg d)).
Proof.
  unfold SupportPoint. rewrite neg_neg_binary32.
  destruct (getFarthestPointInDirection a d) as [x1 y1 z1].
  destruct (getFarthestPointInDirection b (glm.neg d)) as [x2 y2 z2].
  unfold same_vector, glm.neg, glm.sub. simpl.
  repeat split; apply SFopp_SFsub.
Qed.

Lemma is_zero_mul (c z : spec_float) :
  is_finite c = true -> is_zero z = true -> is_zero (SFmul 24 128 c z) = true.
Proof. destruct c, z; simpl; intros; try reflexivity; discriminate. Qed.

Lemma is_zero_add (x y : spec_float) :
  is_zero x = true -> is_zero y = true -> is_zero (SFadd 24 128 x y) = true.
Proof.
  destruct x as [[]| | |], y as [[]| | |]; simpl; intros; try reflexivity;
    discriminate.
Qed.

Lemma is_zero_opp (x : spec_float) : is_zero (SFopp x) = is_zero x.
Proof. destruct x; reflexivity. Qed.

Lemma is_zero_not_less (x y : spec_float) :
  is_zero x = true -> is_zero y = true -> SFltb x y = false.
Proof. destruct x, y; simpl; intros; try reflexivity; discriminate. Qed.

Lemma is_zero_le (x : spec_float) :
  is_zero x = true -> SFleb x (S754_zero false) = true.
Proof. destruct x; simpl; intros; try reflexivity; discriminate. Qed.

Lemma dot_zero_vector (c d : vec3 spec_float) :
  finite3 c = true -> zero_vector d = true -> is_zero (glm.dot c d) = true.
Proof.
  destruct c as [cx cy cz], d as [dx dy dz]. unfold finite3, zero_vector, glm.dot.
  simpl. rewrite !andb_true_iff. intros ((Hx & Hy) & Hz) ((Gx & Gy) & Gz).
  auto using is_zero_add, is_zero_mul.
Qed.

Lemma zero_vector_neg (d : vec3 spec_float) :
  zero_vector (glm.neg d) = zero_vector d.
Proof.
  destruct d as [dx dy dz]. unfold zero_vector, glm.neg. simpl.
  rewrite !is_zero_opp. reflexivity.
Qed.

Lemma finite_box_corner (obj : OBB spec_float) (i : nat) :
  finite_box obj = true -> i < 8 -> finite3 (corners obj i) = true.
Proof.
  unfold finite_box. rewrite forallb_forall. intros H Hi. apply H.
  apply in_seq. lia.
Qed.

(** Along a zero direction all dot products are zeros, none exceeds
    another, and the first corner stays the farthest. *)
Lemma farthest_zero_vector (obj : OBB spec_float) (d : vec3 spec_float) :
  finite_box obj = true -> zero_vector d = true ->
  getFarthestPointInDirection obj d = corners obj 0.
Proof.
  intros Hobj Hd. unfold getFarthestPointInDirection.
  assert (H0 : is_zero (glm.dot (corners obj 0) d) = true)
    by (apply dot_zero_vector; [apply finite_box_corner; [assumption|lia]|assumption]).
  assert (Hidx : Forall (fun i => i < 8) (seq 1 7)) by (repeat constructor; lia).
  revert H0 Hidx. generalize (glm.dot (corners obj 0) d). generalize (seq 1 7).
  intros idx. induction idx as [|i idx IH]; intros m Hm Hidx; [reflexivity|].
  inversion Hidx as [|? ? Hi Hrest]; subst. cbn [fold_left].
  assert (Hgt : fgt (glm.dot (corners obj i) d) m = false).
  { apply is_zero_not_less; [exact Hm|].
    apply dot_zero_vector; [apply finite_box_corner|]; assumption. }
  rewrite Hgt. apply IH; assumption.
Qed.

(** X15. In binary32, for boxes whose corners are finite: a pass that
    starts with a zero direction (each coordinate [+0] or [-0]) returns
    [false] in that pass, provided the difference
    [a.corners[0] - b.corners[0]] does not overflow -- [Support] yields
    that difference, and its dot product with the zero direction is a
    zero, which is [<= 0]. *)
Theorem TestGJK_body_zero_dir (a b : OBB spec_float) (s : State spec_float) :
  finite_box a = true -> finite_box b = true ->
  finite3 (glm.sub (corners a 0) (corners b 0)) = true ->
  zero_vector (dir s) = true ->
  TestGJK_body a b s =
  Some (Return false,
        mkState (simplex s ++ [glm.sub (corners a 0) (corners b 0)]) (dir s)).
Proof.
  intros Ha Hb Hsub Hd. rewrite TestGJK_body_run. unfold pushed, SupportPoint.
  rewrite (farthest_zero_vector a (dir s)) by assumption.
  rewrite (farthest_zero_vector b (glm.neg (dir s)))
    by (rewrite ?zero_vector_neg; assumption).
  assert (Hle : fle (glm.dot (glm.sub (corners a 0) (corners b 0)) (dir s)) f0 = true).
  { apply is_zero_le. apply dot_zero_vector; assumption. }
  rewrite Hle. reflexivity.
Qed.

End Binary32.

(** ** Concrete instances of the further properties *)

Section MoreRuns.
Local Open Scope Z_scope.

Lemma ContainsOrigin_keeps_newest_witness :
  last [edge_b; edge_a] = last (simplex edge_st) /\
  (length [edge_b; edge_a] <= length (simplex edge_st))%nat.
Proof.
  assert (E : ContainsOrigin edge_st =
              Some (false, mkState [edge_b; edge_a] (P3 (-1) 1 2)))
    by (vm_compute; reflexivity).
  destruct (ContainsOrigin_keeps_newest edge_st false _ E) as (W1 & _ & W3).
  split; [exact W1|exact W3].
Defined.

Lemma TestGJK_simplex_differences_witness :
  is_difference cyc_A cyc_B (P3 0 (-9) 4).
Proof.
  assert (E : TestGJK 20 cyc_A cyc_B st0 = Some (None, cyc_tri))
    by (vm_compute; reflexivity).
  apply (TestGJK_simplex_differences 20 cyc_A cyc_B st0 None cyc_tri E).
  simpl. left. reflexivity.
Defined.

Lemma respond_not_twice_witness :
  velocity (respond true (respond true (mkBounce (P3 (-9) 0 0) false))) =
  P3 9 0 0 /\
  antiStuck (respond true (respond true (mkBounce (P3 (-9) 0 0) false))) = false.
Proof.
  destruct (respond_not_twice true true (mkBounce (P3 (-9) 0 0) false))
    as (_ & W2 & W3).
  - vm_compute. discriminate.
  - split; [exact W2|exact W3].
Defined.


Lemma ContainsOrigin_line_perpendicular_witness :
  exists s',
    ContainsOrigin (ops := Single_FloatOps (fun r => r))
                   (mkState [P3 12 7 (-2); P3 4 (-17) 4] (P3 5 6 7)) =
    Some (false, s') /\
    glm.dot (dir s') (glm.sub (P3 12 7 (-2)) (P3 4 (-17) 4)) = 0 /\
    0 <= glm.dot (dir s') (glm.neg (P3 4 (-17) 4)).
Proof.
  apply (ContainsOrigin_line_perpendicular (fun r => r)); reflexivity.
Defined.

Lemma ContainsOrigin_direction_toward_origin_witness :
  0 <= glm.dot (P3 (-1) 1 2) (glm.neg edge_a).
Proof.
  apply (ContainsOrigin_direction_toward_origin (fun r => r)
           edge_st (mkState [edge_b; edge_a] (P3 (-1) 1 2)) edge_a).
  - simpl. lia.
  - reflexivity.
  - reflexivity.
  - vm_compute. reflexivity.
Defined.

Lemma TestGJK_prologue_exit_separates_witness :
  glm.dot (glm.sub (corners apart_A 3) (corners apart_C 0)) (P3 6 (-2) (-2)) < 0.
Proof.
  apply (TestGJK_prologue_exit_separates (fun r => r) apart_A apart_C st0
           (mkState [P3 (-6) 2 2; P3 (-6) (-2) (-2)] (P3 6 (-2) (-2))) 3 0).
  - reflexivity.
  - reflexivity.
  - vm_compute. reflexivity.
  - lia.
  - lia.
Defined.

Lemma TestGJK_false_certificate_witness :
  glm.dot (glm.sub (corners apart_A 2) (corners near_B 5)) (P3 (-16) 0 0) <= 0.
Proof.
  apply (TestGJK_false_certificate (fun r => r) 20 apart_A near_B st0
           (mkState [P3 1 (-1) (-2); P3 1 3 2; P3 1 (-1) 2; P3 1 1 0]
                    (P3 (-16) 0 0)) 2 5).
  - reflexivity.
  - reflexivity.
  - vm_compute. reflexivity.
  - lia.
  - lia.
Defined.

Lemma TestGJK_true_sound_witness :
  exists p1 p2 p3 p4 w1 w2 w3 w4,
    [P3 (-1) (-2) (-2); P3 1 2 4; P3 1 2 (-2); P3 3 (-2) 0] = [p1; p2; p3; p4] /\
    is_difference asym_B asym_A p1 /\ is_difference asym_B asym_A p2 /\
    is_difference asym_B asym_A p3 /\ is_difference asym_B asym_A p4 /\
    0 <= w1 /\ 0 <= w2 /\ 0 <= w3 /\ 0 <= w4 /\
    0 < w1 + w2 + w3 + w4 /\
    combination4 w1 w2 w3 w4 p1 p2 p3 p4 = zero3.
Proof.
  apply (TestGJK_true_sound (fun r => r) 20 asym_B asym_A st0
           (mkState [P3 (-1) (-2) (-2); P3 1 2 4; P3 1 2 (-2); P3 3 (-2) 0]
                    (P3 24 (-12) 0))).
  - reflexivity.
  - reflexivity.
  - vm_compute. reflexivity.
Defined.

Lemma TestGJK_body_zero_dir_witness :
  TestGJK_body (embed asym_A) unit_B zero_st32 =
  Some (Return false,
        mkState (simplex zero_st32 ++ [glm.sub (corners (embed asym_A) 0)
                                              (corners unit_B 0)])
                (dir zero_st32)).
Proof.
  apply (TestGJK_body_zero_dir (embed asym_A) unit_B zero_st32);
    vm_compute; reflexivity.
Defined.

Lemma TestGJK_collinear_start_witness :
  TestGJK (ops := Single_FloatOps (fun r => r)) 1 asym_A asym_B st0 =
  Some (Some false, mkState [P3 3 2 0; P3 (-3) (-2) 0; P3 1 0 (-2)] zero3).
Proof.
  apply (TestGJK_collinear_start (fun r => r) 0 asym_A asym_B st0);
    vm_compute; reflexivity.
Defined.


End MoreRuns.
